(** * Guest image loader (libsel4vmmplatsupport, arch/arm/guest_image.c)

    A shallow embedding of the ARM guest image loader: the format sniffer
    [image_get_type], the load-address rule [zImage_get_load_address], the
    streaming loader [load_image] with its per-chunk callback
    [guest_write_address], and the two public entry points
    [vm_load_guest_kernel] and [vm_load_guest_module].

    Machine integers are [Z] with the wrap-around written out, buffers are
    lists of bytes, and every call into the file server, the memory manager
    or the kernel is an explicit step of a small state monad that also
    collects the events of the run. *)

From Stdlib Require Import ZArith List String Bool Lia.
From Stdlib.Strings Require Import Byte.
Import ListNotations.
Local Open Scope Z_scope.

(* ===================================================================== *)
(** ** Build configuration and machine integers *)

(** The file is built for both 32-bit and 64-bit ARM; [uintptr_t] and
    [size_t] have the width of the machine word. *)
Inductive arch := AArch32 | AArch64.

Record config := {
  cfg_arch : arch;
  (** [config_set(CONFIG_LIB_SEL4VM_DEFER_MEMORY_MAP)] *)
  cfg_defer_memory_map : bool
}.

Definition word_bits (cfg : config) : Z :=
  match cfg_arch cfg with AArch32 => 32 | AArch64 => 64 end.

(** Conversion to [uintptr_t] / [size_t]. *)
Definition wrap (cfg : config) (z : Z) : Z := z mod 2 ^ word_bits cfg.

Definition PAGE_SIZE_4K : Z := 4096.

(** Modelled from the spec: the [ROUND_UP] macro of libutils is not part of
    the sources; the spec reads it as [round_up(length, page_size)], the
    least multiple of [b] that is not below [n], computed in [size_t]. *)
Definition ROUND_UP (cfg : config) (n b : Z) : Z :=
  wrap cfg (n + (if n mod b =? 0 then 0 else b - n mod b)).

(* ===================================================================== *)
(** ** Header buffers *)

Definition byte_val (b : byte) : Z := Z.of_N (Byte.to_N b).

Definition byte_of_Z (z : Z) : byte :=
  match Byte.of_N (Z.to_N (z mod 256)) with
  | Some b => b
  | None => x00
  end.

Definition obind {A B} (o : option A) (f : A -> option B) : option B :=
  match o with Some a => f a | None => None end.

Notation "x <-? o ; k" := (obind o (fun x => k))
  (at level 61, o at next level, right associativity).

(** Loads through a pointer into a buffer; [None] is an access outside the
    object. Multi-byte loads are little-endian, as on every seL4 ARM
    platform. *)
Definition load8 (buf : list byte) (off : nat) : option Z :=
  option_map byte_val (nth_error buf off).

Definition load16 (buf : list byte) (off : nat) : option Z :=
  b0 <-? load8 buf off ;
  b1 <-? load8 buf (off + 1) ;
  Some (b0 + 2 ^ 8 * b1).

Definition load32 (buf : list byte) (off : nat) : option Z :=
  b0 <-? load8 buf off ;
  b1 <-? load8 buf (off + 1) ;
  b2 <-? load8 buf (off + 2) ;
  b3 <-? load8 buf (off + 3) ;
  Some (b0 + 2 ^ 8 * b1 + 2 ^ 16 * b2 + 2 ^ 24 * b3).

(** The object representation of a [uint32_t]. *)
Definition repr32 (v : Z) : list byte :=
  [byte_of_Z v; byte_of_Z (v / 2 ^ 8); byte_of_Z (v / 2 ^ 16); byte_of_Z (v / 2 ^ 24)].

(** [memcmp]: the difference of the first pair of bytes that differ. *)
Fixpoint memcmp (s1 s2 : list byte) (n : nat) {struct n} : option Z :=
  match n with
  | O => Some 0
  | S n' =>
      match s1, s2 with
      | c1 :: t1, c2 :: t2 =>
          if byte_val c1 =? byte_val c2 then memcmp t1 t2 n'
          else Some (byte_val c1 - byte_val c2)
      | _, _ => None
      end
  end.

(* ===================================================================== *)
(** ** Format sniffer *)

Definition UIMAGE_MAGIC : Z := 0x56190527.
Definition ZIMAGE_MAGIC : Z := 0x016F2818.
Definition DTB_MAGIC : Z := 0xedfe0dd0.
Definition INITRD_GZ_MAGIC : Z := 0x8b1f.

(** The constants of [enum img_type] (guest_image.h) that the file uses. *)
Inductive img_type :=
  IMG_BIN | IMG_ELF | IMG_UIMAGE | IMG_ZIMAGE | IMG_DTB | IMG_INITRD_GZ.

(** Field offsets of [struct zimage_hdr { uint32_t code[9]; uint32_t magic;
    uint32_t start; uint32_t end; }]. *)
Definition zimage_hdr_magic : nat := 36.
Definition zimage_hdr_start : nat := 40.

(** [sizeof(Elf64_Ehdr)] *)
Definition sizeof_Elf64_Ehdr : Z := 64.

(** A C truth value. *)
Definition c_bool (b : bool) : Z := if b then 1 else 0.

(** Modelled from the spec: [elf_check_magic] belongs to libelf and is not
    part of the sources; the spec gives it as the standard 4-byte ELF magic
    at offset 0. It returns 0 on a match and -1 otherwise. *)
Definition elf_check_magic (file : list byte) : option Z :=
  m0 <-? load8 file 0 ;
  m1 <-? load8 file 1 ;
  m2 <-? load8 file 2 ;
  m3 <-? load8 file 3 ;
  if negb (m0 =? 0x7f) || negb (m1 =? 0x45) || negb (m2 =? 0x4c) || negb (m3 =? 0x46)
  then Some (-1) else Some 0.

Definition is_uImage (file : list byte) : option Z :=
  let magic := repr32 UIMAGE_MAGIC in
  memcmp file magic 4.

Definition is_zImage (file : list byte) : option Z :=
  magic <-? load32 file zimage_hdr_magic ;
  Some (c_bool (negb (magic =? ZIMAGE_MAGIC))).

Definition is_dtb (file : list byte) : option Z :=
  magic <-? load32 file 0 ;
  Some (c_bool (negb (magic =? DTB_MAGIC))).

Definition is_initrd (file : list byte) : option Z :=
  magic <-? load16 file 0 ;
  Some (c_bool (negb (magic =? INITRD_GZ_MAGIC))).

Definition image_get_type (file : list byte) : option img_type :=
  e <-? elf_check_magic file ;
  if e =? 0 then Some IMG_ELF else
  z <-? is_zImage file ;
  if z =? 0 then Some IMG_ZIMAGE else
  u <-? is_uImage file ;
  if u =? 0 then Some IMG_UIMAGE else
  d <-? is_dtb file ;
  if d =? 0 then Some IMG_DTB else
  i <-? is_initrd file ;
  if i =? 0 then Some IMG_INITRD_GZ else
  Some IMG_BIN.

(** ** Load-address rule of a zImage *)

Definition zImage_get_load_address (cfg : config) (file : list byte) (ram_base : Z)
  : option Z :=
  start <-? load32 file zimage_hdr_start ;
  Some (if negb (start =? 0) then start else wrap cfg (ram_base + 0x8000)).

(* ===================================================================== *)
(** ** The classification rule as the specification words it

    A table of signatures tried in order; the first one found in the header
    decides, and a header with none of them is a raw binary. *)

Definition byte_at (hdr : list byte) (off : nat) : Z := byte_val (nth off hdr x00).

Definition word16_le (hdr : list byte) (off : nat) : Z :=
  byte_at hdr off + 256 * byte_at hdr (off + 1).

Definition word32_le (hdr : list byte) (off : nat) : Z :=
  byte_at hdr off + 256 * byte_at hdr (off + 1)
  + 65536 * byte_at hdr (off + 2) + 16777216 * byte_at hdr (off + 3).

Definition has_elf_magic (hdr : list byte) : bool :=
  (byte_at hdr 0 =? 0x7f) && (byte_at hdr 1 =? 0x45)
  && (byte_at hdr 2 =? 0x4c) && (byte_at hdr 3 =? 0x46).

Definition signature_table : list ((list byte -> bool) * img_type) :=
  [ (has_elf_magic, IMG_ELF);
    ((fun hdr => word32_le hdr 36 =? 0x016F2818), IMG_ZIMAGE);
    ((fun hdr => word32_le hdr 0 =? 0x56190527), IMG_UIMAGE);
    ((fun hdr => word32_le hdr 0 =? 0xEDFE0DD0), IMG_DTB);
    ((fun hdr => word16_le hdr 0 =? 0x8B1F), IMG_INITRD_GZ) ].

Fixpoint first_match (table : list ((list byte -> bool) * img_type))
  (hdr : list byte) : img_type :=
  match table with
  | [] => IMG_BIN
  | (sig, fmt) :: rest => if sig hdr then fmt else first_match rest hdr
  end.

Definition classify (hdr : list byte) : img_type := first_match signature_table hdr.

(* ===================================================================== *)
(** ** The world around the loader *)

(** The fields of [vm_t] the loader reads: [vm->entry] and
    [vm->mem.clean_cache]. *)
Record vm_t := {
  entry : Z;
  clean_cache : bool
}.

(** [guest_image_t] and [guest_kernel_image_t] of guest_image.h (the
    architecture part of the latter is empty on ARM). *)
Record guest_image_t := {
  load_paddr : Z;
  alignment : Z;
  size : Z
}.

Record guest_kernel_image_t := {
  kernel_image : guest_image_t
}.

(** The messages the file logs, one constructor per [ZF_LOGE] site. *)
Inductive log_msg :=
| LOG_unable_to_open_image      (* get_guest_image_type: "Error: Unable to open image '%s'" *)
| LOG_could_not_read_len        (* "Could not read len. File is likely corrupt" *)
| LOG_short_read (len sz : Z)   (* "Bytes read from the file server (%d) don't match expected length (%d)" *)
| LOG_no_vmm_cap (vaddr : Z)    (* "Failed to get vmm cap for vaddr: %p" *)
| LOG_unable_to_find_image      (* load_image: "Error: Unable to find image '%s'" *)
| LOG_zero_size                 (* "Error: '%s' has zero size" *)
| LOG_deferred_map_failed       (* "Error: Failed to map deferred frames for image '%s'" *)
| LOG_failed_to_load            (* "Error: Failed to load '%s'" *)
| LOG_unknown_kernel_format     (* "Error: Unknown kernel image format for '%s'" *)
| LOG_unknown_module_format     (* "Error: Unknown module image format for '%s'" *)
| LOG_invalid_guest_image.      (* "Invalid guest_image_t object" *)

(** The error taxonomy of the specification, and the error each message
    stands for. [LOG_failed_to_load] only repeats the failure of a chunk. *)
Inductive load_error :=
| ArtifactNotFound | ArtifactUnreadable | EmptyArtifact | UnsupportedFormat
| AllocationFailed | DeferredMappingFailed | TruncatedRead
| CacheMaintenanceTargetMissing | CacheMaintenanceFailed | InvalidArgument.

Definition error_of_log (m : log_msg) : option load_error :=
  match m with
  | LOG_unable_to_open_image => Some ArtifactNotFound
  | LOG_could_not_read_len => Some ArtifactUnreadable
  | LOG_short_read _ _ => Some TruncatedRead
  | LOG_no_vmm_cap _ => Some CacheMaintenanceTargetMissing
  | LOG_unable_to_find_image => Some ArtifactNotFound
  | LOG_zero_size => Some EmptyArtifact
  | LOG_deferred_map_failed => Some DeferredMappingFailed
  | LOG_failed_to_load => None
  | LOG_unknown_kernel_format => Some UnsupportedFormat
  | LOG_unknown_module_format => Some UnsupportedFormat
  | LOG_invalid_guest_image => Some InvalidArgument
  end.

(** What a run does to its surroundings, in the order it does it. *)
Inductive event :=
| EvOpen (name : string) (fd : Z)
| EvRead (fd sz len : Z)                  (* [read(fd, _, sz)] returned [len] *)
| EvClose (fd : Z)
| EvLog (m : log_msg)
| EvMarkAllocated (addr sz : Z) (ok : bool)
| EvMapDeferred (addr sz err : Z)
| EvGuestWrite (paddr : Z) (data : list byte)
| EvCleanInvalidate (cap err : Z)
| EvFatal.                                (* [ZF_LOGF]: the process stops *)

(** The collaborators the loader calls but does not own. *)
Record environment := {
  (** the file server: the bytes of each image it can open *)
  fs_lookup : string -> option (list byte);
  (** fault injection: the n-th [read] of a run delivers at most this many
      bytes, a negative bound being an I/O error *)
  read_fault : nat -> option Z;
  (** whether the memory manager manages to mark a range allocated *)
  mark_allocated_ok : Z -> Z -> bool;
  (** the error code of [maybe_map_deferred_pages_at] for a range *)
  map_deferred_err : Z -> Z -> Z;
  (** the VMM address at which a guest-physical address is mapped *)
  vmm_vaddr : Z -> Z;
  (** [vspace_get_cap] on the VMM vspace *)
  vspace_cap : Z -> Z;
  (** the error code of [seL4_ARM_Page_CleanInvalidate_Data] for a cap *)
  clean_invalidate_err : Z -> Z
}.

Definition seL4_CapNull : Z := 0.

(** The descriptor table: each open descriptor with the image it reads and
    its file position; and the number of [read] calls made so far. *)
Record state := {
  open_fds : list (Z * (string * Z));
  nreads : nat
}.

Fixpoint fd_lookup (fd : Z) (t : list (Z * (string * Z))) : option (string * Z) :=
  match t with
  | [] => None
  | (k, v) :: t' => if k =? fd then Some v else fd_lookup fd t'
  end.

Fixpoint fd_remove (fd : Z) (t : list (Z * (string * Z))) : list (Z * (string * Z)) :=
  match t with
  | [] => []
  | (k, v) :: t' => if k =? fd then fd_remove fd t' else (k, v) :: fd_remove fd t'
  end.

Fixpoint fd_update (fd : Z) (v : string * Z) (t : list (Z * (string * Z)))
  : list (Z * (string * Z)) :=
  match t with
  | [] => []
  | (k, w) :: t' => if k =? fd then (k, v) :: t' else (k, w) :: fd_update fd v t'
  end.

(** A descriptor above the standard three and above every open one. *)
Definition fresh_fd (t : list (Z * (string * Z))) : Z :=
  fold_right (fun p m => Z.max (fst p) m) 2 t + 1.

(* ===================================================================== *)
(** ** The monad of the embedding *)

(** A call returns, stops the process ([ZF_LOGF]), or leaves defined
    behaviour (an access outside a buffer, the use of a local that was
    never written). *)
Inductive outcome (A : Type) :=
| Ret (a : A)
| Abort
| Undef.
Arguments Ret {A} a.
Arguments Abort {A}.
Arguments Undef {A}.

Definition M (A : Type) : Type := state -> outcome A * state * list event.

Definition ret {A} (a : A) : M A := fun s => (Ret a, s, []).

Definition bind {A B} (m : M A) (f : A -> M B) : M B := fun s =>
  match m s with
  | (Ret a, s1, t1) => let '(r, s2, t2) := f a s1 in (r, s2, t1 ++ t2)
  | (Abort, s1, t1) => (Abort, s1, t1)
  | (Undef, s1, t1) => (Undef, s1, t1)
  end.

Definition emit (e : event) : M unit := fun s => (Ret tt, s, [e]).
Definition log (m : log_msg) : M unit := emit (EvLog m).
Definition fatal {A} : M A := fun s => (Abort, s, [EvFatal]).
Definition defined {A} (o : option A) : M A := fun s =>
  match o with Some a => (Ret a, s, []) | None => (Undef, s, []) end.
(** A loop of the model that ran out of the steps it was given; the bound
    given to [vm_ram_touch] below is shown to be enough. *)
Definition out_of_fuel {A} : M A := fun s => (Undef, s, []).

Declare Scope loader_scope.
Delimit Scope loader_scope with loader.
Notation "x <- m ;; k" := (bind m (fun x => k))
  (at level 61, m at next level, right associativity) : loader_scope.
Notation "' p <- m ;; k" := (bind m (fun x => let 'p := x in k))
  (at level 61, p pattern, m at next level, right associativity) : loader_scope.
Notation "m ;; k" := (bind m (fun _ => k))
  (at level 61, right associativity) : loader_scope.
Local Open Scope loader_scope.

(** The parts of a finished run. *)
Definition result_of {A} (r : outcome A * state * list event) : outcome A := fst (fst r).
Definition state_of {A} (r : outcome A * state * list event) : state := snd (fst r).
Definition events_of {A} (r : outcome A * state * list event) : list event := snd r.

Section Loader.

Variable cfg : config.
Variable env : environment.

(* --------------------------------------------------------------------- *)
(** *** File server calls *)

Definition sys_open (name : string) : M Z := fun s =>
  match fs_lookup env name with
  | None => (Ret (-1), s, [EvOpen name (-1)])
  | Some _ =>
      let fd := fresh_fd (open_fds s) in
      (Ret fd, {| open_fds := (fd, (name, 0)) :: open_fds s; nreads := nreads s |},
       [EvOpen name fd])
  end.

(** [read(fd, buf, sz)]: the count returned and the bytes stored in [buf]. *)
Definition sys_read (fd sz : Z) : M (Z * list byte) := fun s =>
  let failed := (Ret (-1, []), {| open_fds := open_fds s; nreads := S (nreads s) |},
                 [EvRead fd sz (-1)]) in
  match fd_lookup fd (open_fds s) with
  | None => failed
  | Some (name, pos) =>
      match fs_lookup env name with
      | None => failed
      | Some content =>
          let avail := Z.max 0 (Z.min sz (Z.of_nat (List.length content) - pos)) in
          let n := match read_fault env (nreads s) with
                   | None => avail
                   | Some k => Z.min k avail
                   end in
          if n <? 0 then failed
          else
            (Ret (n, firstn (Z.to_nat n) (skipn (Z.to_nat pos) content)),
             {| open_fds := fd_update fd (name, pos + n) (open_fds s);
                nreads := S (nreads s) |},
             [EvRead fd sz n])
      end
  end.

Inductive whence := SEEK_SET | SEEK_END.

Definition sys_lseek (fd off : Z) (w : whence) : M Z := fun s =>
  match fd_lookup fd (open_fds s) with
  | None => (Ret (-1), s, [])
  | Some (name, pos) =>
      match fs_lookup env name with
      | None => (Ret (-1), s, [])
      | Some content =>
          let target := match w with
                        | SEEK_SET => off
                        | SEEK_END => Z.of_nat (List.length content) + off
                        end in
          if target <? 0 then (Ret (-1), s, [])
          else (Ret target,
                {| open_fds := fd_update fd (name, target) (open_fds s);
                   nreads := nreads s |}, [])
      end
  end.

Definition sys_close (fd : Z) : M unit := fun s =>
  (Ret tt, {| open_fds := fd_remove fd (open_fds s); nreads := nreads s |}, [EvClose fd]).

(** The bytes a [read] stored at the start of a buffer. *)
Definition memstore (buf data : list byte) : list byte :=
  data ++ skipn (List.length data) buf.

(* --------------------------------------------------------------------- *)
(** *** Memory manager and kernel calls *)

(** Modelled from the spec: [vm_ram_mark_allocated] of libsel4vm is not
    part of the sources; the spec gives it as [mark_allocated(range)], a
    request that may fail. The call has no result the loader could read. *)
Definition vm_ram_mark_allocated (vm : vm_t) (start bytes : Z) : M unit :=
  emit (EvMarkAllocated start bytes (mark_allocated_ok env start bytes)).

(** Modelled from the spec: [maybe_map_deferred_pages_at] of libsel4vm is
    not part of the sources; the spec gives it as [map_deferred(range)]
    with an error code. *)
Definition maybe_map_deferred_pages_at (vm : vm_t) (addr sz : Z) : M Z :=
  let err := map_deferred_err env addr sz in
  emit (EvMapDeferred addr sz err) ;; ret err.

Definition ram_touch_callback_fn : Type :=
  vm_t -> Z -> Z -> Z -> Z -> Z -> M Z.

(** Modelled from the spec: [vm_ram_touch] of libsel4vm is not part of the
    sources; the spec gives it as [write_through(range, callback)], which
    calls [callback(dest_buffer, size, offset_within_artifact)] once per
    page-aligned chunk, page-sized or smaller at the boundaries of the
    range, in ascending order, and stops at the first chunk that fails.
    A range of [sz] bytes meets at most [sz / 4096 + 2] pages. *)
Fixpoint touch_from (fuel : nat) (vm : vm_t) (touch_callback : ram_touch_callback_fn)
  (cookie addr current_addr end_addr : Z) : M Z :=
  if current_addr <? end_addr then
    match fuel with
    | O => out_of_fuel
    | S fuel' =>
        let current_aligned := current_addr - current_addr mod PAGE_SIZE_4K in
        let next_addr := Z.min end_addr (current_aligned + PAGE_SIZE_4K) in
        result <- touch_callback vm current_addr (vmm_vaddr env current_addr)
                    (next_addr - current_addr) (current_addr - addr) cookie ;;
        if negb (result =? 0) then ret result
        else touch_from fuel' vm touch_callback cookie addr next_addr end_addr
    end
  else ret 0.

Definition vm_ram_touch (vm : vm_t) (addr sz : Z)
  (touch_callback : ram_touch_callback_fn) (cookie : Z) : M Z :=
  touch_from (Z.to_nat (sz / PAGE_SIZE_4K) + 2) vm touch_callback cookie
    addr addr (addr + sz).

(* --------------------------------------------------------------------- *)
(** *** The loader *)

Definition get_guest_image_type (image_name : string) (header : list byte)
  : M (Z * option img_type * list byte) :=
  fd <- sys_open image_name ;;
  if fd =? -1 then
    log LOG_unable_to_open_image ;;
    ret (-1, None, header)
  else
    '(r, data) <- sys_read fd sizeof_Elf64_Ehdr ;;
    let header := memstore header data in
    let len := wrap cfg r in
    if negb (len =? sizeof_Elf64_Ehdr) then
      log LOG_could_not_read_len ;;
      sys_close fd ;;
      ret (-1, None, header)
    else
      image_type <- defined (image_get_type header) ;;
      sys_close fd ;;
      ret (0, Some image_type, header).

Definition guest_write_address (vm : vm_t) (paddr vaddr sz offset cookie : Z) : M Z :=
  let fd := cookie in
  '(r, data) <- sys_read fd sz ;;
  emit (EvGuestWrite paddr data) ;;
  let len := wrap cfg r in
  if negb (len =? sz) then
    log (LOG_short_read len sz) ;;
    ret (-1)
  else if clean_cache vm then
    let cap := vspace_cap env vaddr in
    if cap =? seL4_CapNull then
      log (LOG_no_vmm_cap vaddr) ;;
      ret (-1)
    else
      let error := clean_invalidate_err env cap in
      emit (EvCleanInvalidate cap error) ;;
      if negb (error =? 0) then fatal else ret 0
  else ret 0.

(** [load_image] returns its error code together with the value it stored
    through [resulting_image_size], if it stored one. *)
Definition load_image (vm : vm_t) (image_name : string) (load_addr : Z)
  : M (Z * option Z) :=
  fd <- sys_open image_name ;;
  if fd =? -1 then
    log LOG_unable_to_find_image ;;
    ret (-1, None)
  else
    off <- sys_lseek fd 0 SEEK_END ;;
    let file_size := wrap cfg off in
    sys_lseek fd 0 SEEK_SET ;;
    if 0 =? file_size then
      log LOG_zero_size ;;
      ret (-1, None)
    else
      vm_ram_mark_allocated vm load_addr (ROUND_UP cfg file_size PAGE_SIZE_4K) ;;
      error <- (if cfg_defer_memory_map cfg
                then maybe_map_deferred_pages_at vm load_addr file_size
                else ret 0) ;;
      if negb (error =? 0) then
        log LOG_deferred_map_failed ;;
        ret (-1, None)
      else
        error <- vm_ram_touch vm load_addr file_size guest_write_address fd ;;
        if negb (error =? 0) then
          log LOG_failed_to_load ;;
          sys_close fd ;;
          ret (-1, None)
        else
          sys_close fd ;;
          ret (0, Some file_size).

(** The [Elf64_Ehdr header = {0}] both entry paths start from. *)
Definition zero_header : list byte := repeat x00 (Z.to_nat sizeof_Elf64_Ehdr).

(** The tail both load paths share: stream the image to [load_addr] and
    return the address, or 0 when the load failed. *)
Definition load_at (vm : vm_t) (image_name : string) (load_addr : Z)
  : M (Z * option Z) :=
  '(err, image_size) <- load_image vm image_name load_addr ;;
  if negb (err =? 0) then ret (0, image_size)
  else ret (load_addr, image_size).

(** Both return the load address (0 on failure) and what was stored
    through [image_size]. *)
Definition load_guest_kernel_image (vm : vm_t) (kernel_image_name : string)
  (load_base_addr : Z) : M (Z * option Z) :=
  '(err, ret_file_type, header) <- get_guest_image_type kernel_image_name zero_header ;;
  if negb (err =? 0) then ret (0, None)
  else
    ret_file_type <- defined ret_file_type ;;
    match ret_file_type with
    | IMG_BIN =>
        load_at vm kernel_image_name (entry vm)
    | IMG_ZIMAGE =>
        load_addr <- defined (zImage_get_load_address cfg header load_base_addr) ;;
        load_at vm kernel_image_name load_addr
    | _ =>
        log LOG_unknown_kernel_format ;;
        ret (0, None)
    end.

Definition load_guest_module_image (vm : vm_t) (image_name : string)
  (load_base_addr : Z) : M (Z * option Z) :=
  '(err, ret_file_type, header) <- get_guest_image_type image_name zero_header ;;
  if negb (err =? 0) then ret (0, None)
  else
    ret_file_type <- defined ret_file_type ;;
    match ret_file_type with
    | IMG_DTB | IMG_INITRD_GZ =>
        load_at vm image_name load_base_addr
    | _ =>
        log LOG_unknown_module_format ;;
        ret (0, None)
    end.

Definition set_image (img : guest_image_t) (addr len : Z) : guest_image_t :=
  {| load_paddr := addr; alignment := alignment img; size := len |}.

(** The entry points take the object their last argument points to
    ([None] for a null pointer) and return it as they leave it. *)
Definition vm_load_guest_kernel (vm : vm_t) (kernel_name : string)
  (load_address align : Z) (guest_kernel_image : option guest_kernel_image_t)
  : M (Z * option guest_kernel_image_t) :=
  match guest_kernel_image with
  | None =>
      log LOG_invalid_guest_image ;;
      ret (-1, None)
  | Some gki =>
      '(load_addr, kernel_len) <- load_guest_kernel_image vm kernel_name load_address ;;
      if 0 =? load_addr then ret (-1, Some gki)
      else
        kernel_len <- defined kernel_len ;;
        ret (0, Some {| kernel_image := set_image (kernel_image gki) load_addr kernel_len |})
  end.

Definition vm_load_guest_module (vm : vm_t) (module_name : string)
  (load_address align : Z) (guest_image : option guest_image_t)
  : M (Z * option guest_image_t) :=
  match guest_image with
  | None =>
      log LOG_invalid_guest_image ;;
      ret (-1, None)
  | Some img =>
      '(load_addr, module_len) <- load_guest_module_image vm module_name load_address ;;
      if 0 =? load_addr then ret (-1, Some img)
      else
        module_len <- defined module_len ;;
        ret (0, Some (set_image img load_addr module_len))
  end.

End Loader.

(* ===================================================================== *)
(** ** Observations on a run *)

(** A [read] that delivered exactly what was asked for. *)
Definition read_exact (e : event) : bool :=
  match e with
  | EvRead _ sz len => len =? sz
  | _ => true
  end.

Definition reads_exact (t : list event) : bool := forallb read_exact t.

(** A state with the descriptor [fd] closed. *)
Definition closed_fd (fd : Z) (st : state) : state :=
  {| open_fds := fd_remove fd (open_fds st); nreads := nreads st |}.

(** The events of a first phase put in front of the run that follows it. *)
Definition after {A} (t : list event) (r : outcome A * state * list event)
  : outcome A * state * list event :=
  (result_of r, state_of r, t ++ events_of r).

(** How a [vm_ram_touch] over [guest_write_address] can end: every chunk
    written; a short read on the last chunk tried; the page of a chunk
    without a cap in the VMM vspace; or the cache maintenance of a chunk
    failing, which stops the process. *)
Definition touch_post (cfg : config) (env : environment) (vm : vm_t) (fd : Z)
  (r : outcome Z * state * list event) : Prop :=
  (result_of r = Ret 0 /\ reads_exact (events_of r) = true)
  \/ (exists pre p sz len data,
        result_of r = Ret (-1)
        /\ events_of r = pre ++ [EvRead fd sz len; EvGuestWrite p data;
                                 EvLog (LOG_short_read (wrap cfg len) sz)]
        /\ reads_exact pre = true /\ len <> sz)
  \/ (clean_cache vm = true /\ reads_exact (events_of r) = true
      /\ ((result_of r = Ret (-1) /\ exists v, vspace_cap env v = seL4_CapNull)
          \/ (result_of r = Abort
              /\ exists v, clean_invalidate_err env (vspace_cap env v) <> 0))).

(** The addresses at which the chunks of the range from [lo] up to [hi]
    start: [lo] itself and the page boundaries above it. *)
Definition chunk_start (lo hi p : Z) : Prop :=
  lo <= p < hi /\ (p = lo \/ p mod PAGE_SIZE_4K = 0).

(** As [touch_post], naming the chunk whose page has no cap or whose cache
    maintenance fails: one of the chunks of the range touched. *)
Definition touch_post_in (cfg : config) (env : environment) (vm : vm_t) (fd lo hi : Z)
  (r : outcome Z * state * list event) : Prop :=
  (result_of r = Ret 0 /\ reads_exact (events_of r) = true)
  \/ (exists pre p sz len data,
        result_of r = Ret (-1)
        /\ events_of r = pre ++ [EvRead fd sz len; EvGuestWrite p data;
                                 EvLog (LOG_short_read (wrap cfg len) sz)]
        /\ reads_exact pre = true /\ len <> sz)
  \/ (clean_cache vm = true /\ reads_exact (events_of r) = true
      /\ exists p,
          chunk_start lo hi p
          /\ ((result_of r = Ret (-1)
               /\ vspace_cap env (vmm_vaddr env p) = seL4_CapNull)
              \/ (result_of r = Abort
                  /\ clean_invalidate_err env (vspace_cap env (vmm_vaddr env p)) <> 0))).

(** Two environments that differ at most in how marking a range allocated
    goes. *)
Definition same_but_mark_allocated (e1 e2 : environment) : Prop :=
  fs_lookup e1 = fs_lookup e2 /\ read_fault e1 = read_fault e2
  /\ map_deferred_err e1 = map_deferred_err e2 /\ vmm_vaddr e1 = vmm_vaddr e2
  /\ vspace_cap e1 = vspace_cap e2 /\ clean_invalidate_err e1 = clean_invalidate_err e2.

(** The events of a run from the third on. *)
Definition from_third (t : list event) : list event := skipn 2 t.

(* ===================================================================== *)
(** ** Fixtures *)

Definition cfg64 : config := {| cfg_arch := AArch64; cfg_defer_memory_map := false |}.
Definition cfg64_deferred : config := {| cfg_arch := AArch64; cfg_defer_memory_map := true |}.
Definition cfg32 : config := {| cfg_arch := AArch32; cfg_defer_memory_map := false |}.

(** A file server with a single image. *)
Definition one_file (name : string) (content : list byte) : string -> option (list byte) :=
  fun n => if String.eqb n name then Some content else None.

(** Collaborators that never fail. *)
Definition quiet_env (files : string -> option (list byte)) : environment :=
  {| fs_lookup := files;
     read_fault := fun _ => None;
     mark_allocated_ok := fun _ _ => true;
     map_deferred_err := fun _ _ => 0;
     vmm_vaddr := fun p => p;
     vspace_cap := fun _ => 1;
     clean_invalidate_err := fun _ => 0 |}.

(** As [quiet_env], with one collaborator failing. *)
Definition env_mark_fails (files : string -> option (list byte)) : environment :=
  {| fs_lookup := files;
     read_fault := fun _ => None;
     mark_allocated_ok := fun _ _ => false;
     map_deferred_err := fun _ _ => 0;
     vmm_vaddr := fun p => p;
     vspace_cap := fun _ => 1;
     clean_invalidate_err := fun _ => 0 |}.

Definition env_deferred_fails (files : string -> option (list byte)) : environment :=
  {| fs_lookup := files;
     read_fault := fun _ => None;
     mark_allocated_ok := fun _ _ => true;
     map_deferred_err := fun _ _ => -1;
     vmm_vaddr := fun p => p;
     vspace_cap := fun _ => 1;
     clean_invalidate_err := fun _ => 0 |}.

Definition env_no_cap (files : string -> option (list byte)) : environment :=
  {| fs_lookup := files;
     read_fault := fun _ => None;
     mark_allocated_ok := fun _ _ => true;
     map_deferred_err := fun _ _ => 0;
     vmm_vaddr := fun p => p;
     vspace_cap := fun _ => seL4_CapNull;
     clean_invalidate_err := fun _ => 0 |}.

(** The second [read] of a run, the first chunk of the streaming load,
    delivers 7 bytes. *)
Definition env_short_read (files : string -> option (list byte)) : environment :=
  {| fs_lookup := files;
     read_fault := fun n => match n with 1%nat => Some 7 | _ => None end;
     mark_allocated_ok := fun _ _ => true;
     map_deferred_err := fun _ _ => 0;
     vmm_vaddr := fun p => p;
     vspace_cap := fun _ => 1;
     clean_invalidate_err := fun _ => 0 |}.

(** The VMM vspace has a cap for the page mapped at 0x40000000 and for no
    other. *)
Definition env_one_cap (files : string -> option (list byte)) : environment :=
  {| fs_lookup := files;
     read_fault := fun _ => None;
     mark_allocated_ok := fun _ _ => true;
     map_deferred_err := fun _ _ => 0;
     vmm_vaddr := fun p => p;
     vspace_cap := fun v => if v =? 0x40000000 then 1 else seL4_CapNull;
     clean_invalidate_err := fun _ => 0 |}.

Definition no_fds : state := {| open_fds := []; nreads := 0 |}.

(** The state in which a load path enters [load_image]: the header has
    been read and its descriptor closed. *)
Definition after_header : state := {| open_fds := []; nreads := 1 |}.

Definition vm_at (e : Z) : vm_t := {| entry := e; clean_cache := true |}.

Definition blank_image : guest_image_t := {| load_paddr := 0; alignment := 0; size := 0 |}.
Definition blank_kernel_image : guest_kernel_image_t := {| kernel_image := blank_image |}.

(** A raw binary of 100 bytes, a truncated image of 10 bytes, a gzip
    ramdisk and a zImage without a start address, 100 bytes each. *)
Definition raw_100 : list byte := repeat x01 100.
Definition raw_10 : list byte := repeat x01 10.
Definition initrd_100 : list byte := [x1f; x8b] ++ repeat x00 98.
Definition zimage_100 : list byte :=
  repeat x00 36 ++ [x18; x28; x6f; x01] ++ repeat x00 60.

(** A raw binary of three pages. *)
Definition raw_3_pages : list byte := repeat x01 12288.

(** The cache maintenance operations among the events of a run. *)
Definition is_clean_invalidate (e : event) : bool :=
  match e with
  | EvCleanInvalidate _ _ => true
  | _ => false
  end.

(** The guest-physical addresses written, in the order of the writes. *)
Definition written_at (t : list event) : list Z :=
  flat_map (fun e => match e with EvGuestWrite p _ => [p] | _ => [] end) t.

(** The writes of a run to guest memory, address and bytes, in order. *)
Definition guest_writes (t : list event) : list (Z * list byte) :=
  flat_map (fun e => match e with EvGuestWrite p d => [(p, d)] | _ => [] end) t.

(** Writes that follow one another from [a] on, without gap or overlap. *)
Fixpoint contiguous_from (a : Z) (ws : list (Z * list byte)) : bool :=
  match ws with
  | [] => true
  | (p, d) :: rest => (p =? a) && contiguous_from (a + Z.of_nat (List.length d)) rest
  end.

(** The bytes of a sequence of writes, one after the other. *)
Definition written_bytes (ws : list (Z * list byte)) : list byte :=
  List.concat (map snd ws).

(** The requests to mark a range allocated among the events of a run. *)
Definition marked_ranges (t : list event) : list (Z * Z) :=
  flat_map (fun e => match e with EvMarkAllocated a n _ => [(a, n)] | _ => [] end) t.

(** The format the sniffer finds in a header, by the tests of
    [image_get_type] in their order. *)
Definition sniffed (hdr : list byte) : img_type :=
  if has_elf_magic hdr then IMG_ELF
  else if word32_le hdr 36 =? ZIMAGE_MAGIC then IMG_ZIMAGE
  else if word32_le hdr 0 =? UIMAGE_MAGIC then IMG_UIMAGE
  else if word32_le hdr 0 =? DTB_MAGIC then IMG_DTB
  else if word16_le hdr 0 =? INITRD_GZ_MAGIC then IMG_INITRD_GZ
  else IMG_BIN.

(** Every write to guest memory is followed at once by the cleaning of
    the page written, with the cap that [cap_of] gives for its address, a
    cap that is not null, and without error. *)
Fixpoint cleaned_after_write (cap_of : Z -> Z) (t : list event) : bool :=
  match t with
  | [] => true
  | e :: tl =>
      match e with
      | EvGuestWrite p _ =>
          match tl with
          | EvCleanInvalidate c err :: _ =>
              (c =? cap_of p) && negb (c =? seL4_CapNull) && (err =? 0)
              && cleaned_after_write cap_of tl
          | _ => false
          end
      | _ => cleaned_after_write cap_of tl
      end
  end.

(** What an entry point makes of the run of [load_image] at the address
    [a] resolved for the image: failure unless the load returned 0 and [a]
    is not 0, and then the descriptor [store a len] for the size stored. *)
Definition entry_result {D : Type} (old : D) (store : Z -> Z -> D) (a : Z)
  (r : outcome (Z * option Z) * state * list event)
  : outcome (Z * option D) * state * list event :=
  match result_of r with
  | Ret (err, o) =>
      if negb (err =? 0) then (Ret (-1, Some old), state_of r, events_of r)
      else if 0 =? a then (Ret (-1, Some old), state_of r, events_of r)
      else match o with
           | Some len => (Ret (0, Some (store a len)), state_of r, events_of r)
           | None => (Undef, state_of r, events_of r)
           end
  | Abort => (Abort, state_of r, events_of r)
  | Undef => (Undef, state_of r, events_of r)
  end.

(** The descriptors the entry points store. *)
Definition kernel_store (gki : guest_kernel_image_t) (a len : Z) : guest_kernel_image_t :=
  {| kernel_image := set_image (kernel_image gki) a len |}.

Definition module_store (img : guest_image_t) (a len : Z) : guest_image_t :=
  set_image img a len.

(* ===================================================================== *)
(** * Properties *)

(** ** Bytes and loads *)

Lemma byte_val_range (b : byte) : 0 <= byte_val b < 256.
Proof.
  unfold byte_val. pose proof (Byte.to_N_bounded b) as H. lia.
Qed.

Lemma load8_in_range (buf : list byte) (off : nat) :
  (off < List.length buf)%nat -> load8 buf off = Some (byte_at buf off).
Proof.
  intros H. unfold load8, byte_at.
  rewrite (nth_error_nth' buf x00 H). reflexivity.
Qed.

Lemma load16_in_range (buf : list byte) (off : nat) :
  (off + 1 < List.length buf)%nat -> load16 buf off = Some (word16_le buf off).
Proof.
  intros H. unfold load16.
  rewrite !load8_in_range by lia. reflexivity.
Qed.

Lemma load32_in_range (buf : list byte) (off : nat) :
  (off + 3 < List.length buf)%nat -> load32 buf off = Some (word32_le buf off).
Proof.
  intros H. unfold load32.
  rewrite !load8_in_range by lia. reflexivity.
Qed.

Lemma word32_le_range (buf : list byte) (off : nat) :
  0 <= word32_le buf off < 2 ^ 32.
Proof.
  unfold word32_le, byte_at.
  pose proof (byte_val_range (nth off buf x00)).
  pose proof (byte_val_range (nth (off + 1) buf x00)).
  pose proof (byte_val_range (nth (off + 2) buf x00)).
  pose proof (byte_val_range (nth (off + 3) buf x00)).
  change (2 ^ 32) with 4294967296. lia.
Qed.

Lemma elf_check_magic_spec (file : list byte) :
  (3 < List.length file)%nat ->
  elf_check_magic file = Some (if has_elf_magic file then 0 else -1).
Proof.
  intros H. unfold elf_check_magic, has_elf_magic.
  rewrite !load8_in_range by lia. cbn [obind].
  destruct (byte_at file 0 =? 127), (byte_at file 1 =? 69),
    (byte_at file 2 =? 76), (byte_at file 3 =? 70); reflexivity.
Qed.

(** [memcmp] against the bytes of the magic finds no difference exactly
    when the first word of the file is the magic. *)
Lemma is_uImage_spec (file : list byte) :
  (3 < List.length file)%nat ->
  exists d, is_uImage file = Some d
            /\ (d =? 0) = (word32_le file 0 =? 0x56190527).
Proof.
  intros H.
  destruct file as [|b0 [|b1 [|b2 [|b3 rest]]]]; try (cbn in H; lia).
  unfold is_uImage, word32_le, byte_at.
  change (repr32 UIMAGE_MAGIC) with [x27; x05; x19; x56].
  cbn [memcmp nth Nat.add].
  change (byte_val x27) with 39. change (byte_val x05) with 5.
  change (byte_val x19) with 25. change (byte_val x56) with 86.
  pose proof (byte_val_range b0). pose proof (byte_val_range b1).
  pose proof (byte_val_range b2). pose proof (byte_val_range b3).
  repeat match goal with
         | |- context [if ?a =? ?b then _ else _] =>
             destruct (Z.eqb_spec a b)
         end;
    eexists; (split; [reflexivity|]);
    match goal with
    | |- (?x =? ?y) = (?u =? ?v) =>
        destruct (Z.eqb_spec x y); destruct (Z.eqb_spec u v); try reflexivity; lia
    end.
Qed.

(** ** C3: the sniffer *)

(** C3. On a header buffer of the size the loader reads (a 64-bit ELF
    header), [image_get_type] never leaves the buffer and returns the
    format of the first signature of the table that the buffer carries:
    the ELF magic at offset 0, 0x016F2818 at offset 36, 0x56190527 at
    offset 0, 0xEDFE0DD0 at offset 0 (32-bit little-endian words), the
    16-bit 0x8B1F at offset 0, and a raw binary when none is there. It is a
    function of the buffer alone. *)
Theorem image_get_type_first_match (file : list byte) :
  Z.of_nat (List.length file) = sizeof_Elf64_Ehdr ->
  image_get_type file = Some (classify file).
Proof.
  intros Hlen. unfold sizeof_Elf64_Ehdr in Hlen.
  unfold image_get_type.
  rewrite elf_check_magic_spec by lia. cbn [obind].
  unfold classify, signature_table, first_match.
  destruct (has_elf_magic file); [reflexivity|].
  change (-1 =? 0) with false. cbv iota.
  unfold is_zImage, zimage_hdr_magic. rewrite load32_in_range by lia.
  cbn [obind]. unfold ZIMAGE_MAGIC.
  destruct (word32_le file 36 =? _); [reflexivity|].
  cbn [negb c_bool]. change (1 =? 0) with false. cbv iota.
  destruct (is_uImage_spec file) as (d & Hd & Hd0); [lia|].
  rewrite Hd. cbn [obind]. rewrite Hd0.
  destruct (word32_le file 0 =? _); [reflexivity|].
  unfold is_dtb. rewrite load32_in_range by lia. cbn [obind]. unfold DTB_MAGIC.
  destruct (word32_le file 0 =? _); [reflexivity|].
  cbn [negb c_bool]. change (1 =? 0) with false. cbv iota.
  unfold is_initrd. rewrite load16_in_range by lia. cbn [obind].
  unfold INITRD_GZ_MAGIC.
  destruct (word16_le file 0 =? _); reflexivity.
Qed.

Lemma image_get_type_first_match_witness :
  image_get_type initrd_100 = Some IMG_INITRD_GZ
  /\ image_get_type (firstn 64 zimage_100) = Some (classify (firstn 64 zimage_100)).
Proof.
  split; [reflexivity|].
  apply (image_get_type_first_match (firstn 64 zimage_100)). reflexivity.
Defined.

(** ** C2: the load address of a zImage *)

Lemma wrap_small (cfg : config) (z : Z) :
  0 <= z < 2 ^ word_bits cfg -> wrap cfg z = z.
Proof. intros H. unfold wrap. apply Z.mod_small. exact H. Qed.

Lemma word_bits_cases (cfg : config) :
  2 ^ word_bits cfg = 4294967296 \/ 2 ^ word_bits cfg = 18446744073709551616.
Proof. unfold word_bits. destruct (cfg_arch cfg); [left | right]; reflexivity. Qed.

(** [ROUND_UP] to the page size, where it does not overflow, is the least
    multiple of the page size that is not below its argument. *)
Lemma ROUND_UP_page (cfg : config) (n : Z) :
  0 <= n -> n + 4095 < 2 ^ word_bits cfg ->
  ROUND_UP cfg n PAGE_SIZE_4K mod 4096 = 0
  /\ n <= ROUND_UP cfg n PAGE_SIZE_4K < n + 4096.
Proof.
  intros H0 Hfit. unfold ROUND_UP, PAGE_SIZE_4K.
  pose proof (Z.mod_pos_bound n 4096 ltac:(lia)) as Hm.
  destruct (Z.eqb_spec (n mod 4096) 0) as [E | E].
  - rewrite wrap_small by lia. rewrite Z.add_0_r. lia.
  - rewrite wrap_small by lia. split; [|lia].
    clear - Hm. Z.to_euclidean_division_equations. lia.
Qed.

(** C2, as the code has it. For a header of the size the loader reads, a
    start field (the little-endian word at offset 40) that is not zero is
    returned as it is; with a zero start field the result is the base plus
    0x8000 in [uintptr_t] arithmetic, that is modulo 2^32 or 2^64, which is
    the plain sum whenever the sum fits the word. *)
Theorem zImage_get_load_address_rule (cfg : config) (file : list byte) (X : Z) :
  Z.of_nat (List.length file) = sizeof_Elf64_Ehdr ->
  0 <= X < 2 ^ word_bits cfg ->
  (word32_le file 40 <> 0 ->
   zImage_get_load_address cfg file X = Some (word32_le file 40))
  /\ (word32_le file 40 = 0 ->
      zImage_get_load_address cfg file X = Some ((X + 0x8000) mod 2 ^ word_bits cfg))
  /\ (word32_le file 40 = 0 -> X + 0x8000 < 2 ^ word_bits cfg ->
      zImage_get_load_address cfg file X = Some (X + 0x8000)).
Proof.
  intros Hlen HX. unfold sizeof_Elf64_Ehdr in Hlen.
  unfold zImage_get_load_address, zimage_hdr_start.
  rewrite load32_in_range by lia. cbn [obind].
  repeat split.
  - intros Hs. apply Z.eqb_neq in Hs. rewrite Hs. reflexivity.
  - intros Hs. rewrite Hs. reflexivity.
  - intros Hs Hfit. rewrite Hs. cbn [Z.eqb negb].
    rewrite wrap_small by lia. reflexivity.
Qed.

Lemma zImage_get_load_address_rule_witness :
  zImage_get_load_address cfg64 (firstn 64 zimage_100) 0x80000000 = Some 0x80008000.
Proof.
  apply (zImage_get_load_address_rule cfg64 (firstn 64 zimage_100) 0x80000000);
    [reflexivity | cbn; lia | reflexivity | cbn; lia].
Defined.

(** C2 as stated fails at the top of the address space. The header of the
    zImage fixture carries the zImage magic and no start address; with the
    base 2^64 - 0x8000 the sum is 2^64 and the address returned is 0, so
    that the kernel is streamed to address 0 and the entry point fails. *)
Lemma zImage_get_load_address_wraps :
  image_get_type (firstn 64 zimage_100) = Some IMG_ZIMAGE
  /\ word32_le (firstn 64 zimage_100) 40 = 0
  /\ zImage_get_load_address cfg64 (firstn 64 zimage_100) 0xFFFFFFFFFFFF8000 = Some 0
  /\ zImage_get_load_address cfg64 (firstn 64 zimage_100) 0xFFFFFFFFFFFF8000
     <> Some (0xFFFFFFFFFFFF8000 + 0x8000)
  /\ vm_load_guest_kernel cfg64 (quiet_env (one_file "kernel" zimage_100))
       (vm_at 0x40000000) "kernel" 0xFFFFFFFFFFFF8000 0 (Some blank_kernel_image) no_fds
     = (Ret (-1, Some blank_kernel_image), {| open_fds := []; nreads := 2 |},
        [EvOpen "kernel" 3; EvRead 3 64 64; EvClose 3;
         EvOpen "kernel" 3; EvMarkAllocated 0 4096 true;
         EvRead 3 100 100; EvGuestWrite 0 zimage_100;
         EvCleanInvalidate 1 0; EvClose 3]).
Proof.
  split; [reflexivity|]. split; [reflexivity|]. split; [reflexivity|].
  split; [discriminate|]. vm_compute. reflexivity.
Qed.

(** ** Descriptors *)

Lemma fresh_fd_ge (t : list (Z * (string * Z))) : 3 <= fresh_fd t.
Proof.
  unfold fresh_fd. induction t as [|[k v] t IH]; cbn [fold_right fst]; lia.
Qed.

Lemma fd_remove_above (fd : Z) (t : list (Z * (string * Z))) :
  fold_right (fun p m => Z.max (fst p) m) 2 t < fd -> fd_remove fd t = t.
Proof.
  induction t as [|[k v] t IH]; cbn [fold_right fst fd_remove]; intros H.
  - reflexivity.
  - destruct (Z.eqb_spec k fd); [lia|]. rewrite IH by lia. reflexivity.
Qed.

Lemma fd_remove_fresh (t : list (Z * (string * Z))) :
  fd_remove (fresh_fd t) t = t.
Proof. apply fd_remove_above. unfold fresh_fd. lia. Qed.

Lemma wrap_count (cfg : config) (n bound : Z) :
  -1 <= n <= bound -> 0 <= bound <= 4096 ->
  (wrap cfg n =? bound) = (n =? bound).
Proof.
  intros Hn Hb. unfold wrap.
  assert (Hm : n mod 2 ^ word_bits cfg = n \/ (n = -1 /\ 4096 < n mod 2 ^ word_bits cfg)).
  { destruct (Z.eq_dec n (-1)) as [-> | Hne].
    - right. split; [reflexivity|].
      destruct (word_bits_cases cfg) as [E | E]; rewrite E; reflexivity.
    - left. apply Z.mod_small.
      destruct (word_bits_cases cfg) as [E | E]; rewrite E; lia. }
  destruct Hm as [-> | [-> Hbig]]; [reflexivity|].
  destruct (Z.eqb_spec ((-1) mod 2 ^ word_bits cfg) bound), (Z.eqb_spec (-1) bound);
    try reflexivity; lia.
Qed.

(** ** Steps of the monad *)

Lemma bind_Ret {A B} (m : M A) (f : A -> M B) (s s1 : state) (a : A) (t1 : list event) :
  m s = (Ret a, s1, t1) -> bind m f s = after t1 (f a s1).
Proof.
  intros H. unfold bind, after. rewrite H.
  destruct (f a s1) as [[r s2] t2]. reflexivity.
Qed.

Lemma bind_Abort {A B} (m : M A) (f : A -> M B) (s s1 : state) (t1 : list event) :
  m s = (Abort, s1, t1) -> bind m f s = (Abort, s1, t1).
Proof. intros H. unfold bind. rewrite H. reflexivity. Qed.

Lemma bind_Undef {A B} (m : M A) (f : A -> M B) (s s1 : state) (t1 : list event) :
  m s = (Undef, s1, t1) -> bind m f s = (Undef, s1, t1).
Proof. intros H. unfold bind. rewrite H. reflexivity. Qed.

Lemma after_nil {A} (r : outcome A * state * list event) : after [] r = r.
Proof. destruct r as [[o s] t]. reflexivity. Qed.

Lemma after_after {A} (t t' : list event) (r : outcome A * state * list event) :
  after t (after t' r) = after (t ++ t') r.
Proof. unfold after. cbn [result_of state_of events_of fst snd]. rewrite app_assoc. reflexivity. Qed.

Section SnifferRuns.
Variable cfg : config.
Variable env : environment.

Lemma get_guest_image_type_run (name : string) (s : state) (content : list byte) :
  fs_lookup env name = Some content ->
  let fd := fresh_fd (open_fds s) in
  let avail := Z.max 0 (Z.min sizeof_Elf64_Ehdr (Z.of_nat (List.length content) - 0)) in
  let n := match read_fault env (nreads s) with
           | None => avail
           | Some k => Z.min k avail
           end in
  let s' := {| open_fds := open_fds s; nreads := S (nreads s) |} in
  get_guest_image_type cfg env name zero_header s =
    if n <? 0 then
      (Ret (-1, None, zero_header), s',
       [EvOpen name fd; EvRead fd sizeof_Elf64_Ehdr (-1); EvLog LOG_could_not_read_len; EvClose fd])
    else
      let hdr := memstore zero_header (firstn (Z.to_nat n) content) in
      if n =? sizeof_Elf64_Ehdr then
        match image_get_type hdr with
        | Some t => (Ret (0, Some t, hdr), s',
                     [EvOpen name fd; EvRead fd sizeof_Elf64_Ehdr n; EvClose fd])
        | None => (Undef, {| open_fds := (fd, (name, n)) :: open_fds s; nreads := S (nreads s) |},
                   [EvOpen name fd; EvRead fd sizeof_Elf64_Ehdr n])
        end
      else
        (Ret (-1, None, hdr), s',
         [EvOpen name fd; EvRead fd sizeof_Elf64_Ehdr n; EvLog LOG_could_not_read_len; EvClose fd]).
Proof.
  intros Hfs fd avail n s'.
  assert (Hfd : 3 <= fd) by apply fresh_fd_ge.
  assert (Hrm : fd_remove fd (open_fds s) = open_fds s) by apply fd_remove_fresh.
  assert (Havail : 0 <= avail <= 64) by (subst avail; unfold sizeof_Elf64_Ehdr; lia).
  assert (Hn : n <= 64) by (subst n; destruct (read_fault env (nreads s)); lia).
  unfold get_guest_image_type, bind, sys_open. rewrite Hfs. fold fd.
  destruct (Z.eqb_spec fd (-1)) as [|_]; [lia|].
  unfold sys_read. cbn [open_fds nreads fd_lookup]. rewrite Z.eqb_refl, Hfs.
  fold avail. fold n.
  change (skipn (Z.to_nat 0) content) with content.
  destruct (Z.ltb_spec n 0) as [Hneg | Hpos].
  - rewrite (wrap_count cfg (-1) sizeof_Elf64_Ehdr) by (unfold sizeof_Elf64_Ehdr; lia).
    unfold log, emit, sys_close, ret.
    cbn [open_fds nreads fd_remove app negb Z.eqb sizeof_Elf64_Ehdr].
    rewrite Z.eqb_refl, Hrm. reflexivity.
  - cbn [fd_update]. rewrite Z.eqb_refl.
    rewrite (wrap_count cfg n sizeof_Elf64_Ehdr) by (unfold sizeof_Elf64_Ehdr; lia).
    destruct (n =? sizeof_Elf64_Ehdr); cbn [negb].
    + unfold defined.
      destruct (image_get_type (memstore zero_header (firstn (Z.to_nat n) content))).
      * unfold sys_close, ret. cbn [open_fds nreads fd_remove app].
        rewrite Z.eqb_refl, Hrm. reflexivity.
      * reflexivity.
    + unfold log, emit, sys_close, ret. cbn [open_fds nreads fd_remove app].
      rewrite Z.eqb_refl, Hrm. reflexivity.
Qed.
End SnifferRuns.
Section ChunkRuns.
Variable cfg : config.
Variable env : environment.

Lemma sys_read_run (fd sz : Z) (s : state) :
  0 <= sz ->
  exists n data s',
    sys_read env fd sz s = (Ret (n, data), s', [EvRead fd sz n]) /\ -1 <= n <= sz.
Proof.
  intros Hsz. unfold sys_read.
  destruct (fd_lookup fd (open_fds s)) as [[name pos]|];
    [destruct (fs_lookup env name) as [content|]|];
    try (do 3 eexists; split; [reflexivity | lia]).
  set (avail := Z.max 0 (Z.min sz (Z.of_nat (List.length content) - pos))).
  set (n := match read_fault env (nreads s) with
            | Some k => Z.min k avail
            | None => avail
            end).
  assert (n <= sz) by (subst n avail; destruct (read_fault env (nreads s)); lia).
  destruct (Z.ltb_spec n 0); do 3 eexists; (split; [reflexivity | lia]).
Qed.

(** One chunk: the read, the bytes put in guest memory, and then either a
    short-read error, or the cache maintenance of the page. *)
Lemma guest_write_address_run (vm : vm_t) (paddr vaddr sz offset fd : Z) (s : state) :
  0 <= sz <= 4096 ->
  exists n data s' rest,
    state_of (guest_write_address cfg env vm paddr vaddr sz offset fd s) = s'
    /\ events_of (guest_write_address cfg env vm paddr vaddr sz offset fd s)
       = EvRead fd sz n :: EvGuestWrite paddr data :: rest
    /\ reads_exact rest = true
    /\ ((n <> sz /\ rest = [EvLog (LOG_short_read (wrap cfg n) sz)]
         /\ result_of (guest_write_address cfg env vm paddr vaddr sz offset fd s) = Ret (-1))
        \/ (n = sz
            /\ ((result_of (guest_write_address cfg env vm paddr vaddr sz offset fd s) = Ret 0
                 /\ (clean_cache vm = true ->
                     vspace_cap env vaddr <> seL4_CapNull
                     /\ clean_invalidate_err env (vspace_cap env vaddr) = 0))
                \/ (clean_cache vm = true /\ vspace_cap env vaddr = seL4_CapNull
                    /\ result_of (guest_write_address cfg env vm paddr vaddr sz offset fd s)
                       = Ret (-1))
                \/ (clean_cache vm = true
                    /\ clean_invalidate_err env (vspace_cap env vaddr) <> 0
                    /\ result_of (guest_write_address cfg env vm paddr vaddr sz offset fd s)
                       = Abort)))).
Proof.
  intros Hsz.
  destruct (sys_read_run fd sz s) as (n & data & s' & Hrd & Hn); [lia|].
  exists n, data, s'.
  unfold guest_write_address, bind. rewrite Hrd.
  unfold emit at 1. cbn beta iota.
  rewrite (wrap_count cfg n sz) by lia.
  destruct (Z.eqb_spec n sz) as [-> | Hne]; cbn [negb].
  - destruct (clean_cache vm) eqn:Hcc.
    + destruct (Z.eqb_spec (vspace_cap env vaddr) seL4_CapNull) as [Hcap | Hcap].
      * eexists. repeat split; try reflexivity.
        right. split; [reflexivity|]. right. left. auto.
      * unfold emit, fatal, ret.
        destruct (Z.eqb_spec (clean_invalidate_err env (vspace_cap env vaddr)) 0) as [Herr | Herr];
          cbn [negb];
          eexists; repeat split; try reflexivity; right; (split; [reflexivity|]).
        -- left. split; [reflexivity|]. auto.
        -- right. right. auto.
    + eexists. repeat split; try reflexivity.
      right. split; [reflexivity|]. left. split; [reflexivity|]. discriminate.
  - eexists. repeat split; try reflexivity. left. auto.
Qed.

Lemma touch_post_prepend (vm : vm_t) (fd : Z) (ev : list event)
  (r : outcome Z * state * list event) :
  reads_exact ev = true ->
  touch_post cfg env vm fd r ->
  touch_post cfg env vm fd (result_of r, state_of r, ev ++ events_of r).
Proof.
  intros Hev [[Hr Hx] | [(pre & p & sz & len & data & Hr & He & Hpre & Hne) | (Hcc & Hx & Hr)]];
    unfold touch_post; cbn [result_of events_of fst snd].
  - left. split; [exact Hr|]. unfold reads_exact in *. rewrite forallb_app, Hev, Hx. reflexivity.
  - right. left. exists (ev ++ pre), p, sz, len, data.
    repeat split; try assumption.
    + rewrite He, app_assoc. reflexivity.
    + unfold reads_exact in *. rewrite forallb_app, Hev, Hpre. reflexivity.
  - right. right. repeat split; try assumption.
    unfold reads_exact in *. rewrite forallb_app, Hev, Hx. reflexivity.
Qed.

(** The loop of [vm_ram_touch] over [guest_write_address], with steps
    enough for the pages left. *)
Lemma touch_from_post (vm : vm_t) (fd addr end_addr : Z) (fuel : nat) :
  forall (current_addr : Z) (s : state),
    (current_addr < end_addr ->
     end_addr - (current_addr - current_addr mod 4096) <= 4096 * Z.of_nat fuel) ->
    touch_post cfg env vm fd
      (touch_from env fuel vm (guest_write_address cfg env) fd addr current_addr end_addr s).
Proof.
  induction fuel as [|fuel IH]; intros cur s Hfuel.
  - cbn [touch_from]. destruct (Z.ltb_spec cur end_addr) as [Hlt | Hge].
    + pose proof (Z.mod_pos_bound cur 4096). lia.
    + left. split; reflexivity.
  - cbn [touch_from]. destruct (Z.ltb_spec cur end_addr) as [Hlt | Hge];
      [| left; split; reflexivity].
    unfold PAGE_SIZE_4K.
    set (next := Z.min end_addr (cur - cur mod 4096 + 4096)).
    pose proof (Z.mod_pos_bound cur 4096 ltac:(lia)) as Hmod.
    assert (Hsz : 0 <= next - cur <= 4096) by (subst next; lia).
    assert (Hnext : next < end_addr ->
                    end_addr - (next - next mod 4096) <= 4096 * Z.of_nat fuel).
    { intros Hn. assert (Hnx : next = cur - cur mod 4096 + 4096) by (subst next; lia).
      assert (next mod 4096 = 0).
      { rewrite Hnx. clear - Hmod. Z.to_euclidean_division_equations. lia. }
      specialize (Hfuel Hlt). lia. }
    specialize (IH next).
    destruct (guest_write_address_run vm cur (vmm_vaddr env cur) (next - cur)
                (cur - addr) fd s Hsz)
      as (n & data & s' & rest & Hs & He & Hrest & Hcase).
    unfold bind.
    destruct (guest_write_address cfg env vm cur (vmm_vaddr env cur) (next - cur)
                (cur - addr) fd s) as [[r s1] ev].
    cbn [result_of state_of events_of fst snd] in *. subst s1 ev.
    destruct Hcase as [(Hne & -> & ->) | (-> & [(-> & Hcap) | [(Hcc & Hcap & ->) | (Hcc & Herr & ->)]])].
    + cbn. right. left. exists [], cur, (next - cur), n, data.
      repeat split; try reflexivity. exact Hne.
    + cbn [Z.eqb negb].
      specialize (IH s' Hnext).
      pose proof (touch_post_prepend vm fd
                    (EvRead fd (next - cur) (next - cur) :: EvGuestWrite cur data :: rest)
                    _ ltac:(unfold reads_exact in *; cbn [forallb read_exact];
                              rewrite Z.eqb_refl; exact Hrest) IH) as Hp.
      destruct (touch_from env fuel vm (guest_write_address cfg env) fd addr next end_addr s')
        as [[r2 s2] ev2].
      exact Hp.
    + cbn. right. right. repeat split; try assumption.
      * unfold reads_exact, events_of in *. cbn [snd forallb read_exact].
        rewrite Z.eqb_refl, app_nil_r. exact Hrest.
      * left. split; [reflexivity|]. eauto.
    + right. right. repeat split; try assumption.
      * unfold reads_exact, events_of in *. cbn [snd forallb read_exact].
        rewrite Z.eqb_refl. exact Hrest.
      * right. split; [reflexivity|]. eauto.
Qed.

Lemma vm_ram_touch_post (vm : vm_t) (addr sz fd : Z) (s : state) :
  0 <= sz ->
  touch_post cfg env vm fd (vm_ram_touch env vm addr sz (guest_write_address cfg env) fd s).
Proof.
  intros Hsz. unfold vm_ram_touch. apply touch_from_post.
  intros _. unfold PAGE_SIZE_4K.
  pose proof (Z.mod_pos_bound addr 4096 ltac:(lia)).
  rewrite Nat2Z.inj_add, Z2Nat.id by (apply Z.div_pos; lia).
  Z.to_euclidean_division_equations. lia.
Qed.

Lemma touch_post_in_prepend (vm : vm_t) (fd lo hi : Z) (ev : list event)
  (r : outcome Z * state * list event) :
  reads_exact ev = true ->
  touch_post_in cfg env vm fd lo hi r ->
  touch_post_in cfg env vm fd lo hi (result_of r, state_of r, ev ++ events_of r).
Proof.
  intros Hev [[Hr Hx] | [(pre & p & sz & len & data & Hr & He & Hpre & Hne) | (Hcc & Hx & Hr)]];
    unfold touch_post_in; cbn [result_of events_of fst snd].
  - left. split; [exact Hr|]. unfold reads_exact in *. rewrite forallb_app, Hev, Hx. reflexivity.
  - right. left. exists (ev ++ pre), p, sz, len, data.
    repeat split; try assumption.
    + rewrite He, app_assoc. reflexivity.
    + unfold reads_exact in *. rewrite forallb_app, Hev, Hpre. reflexivity.
  - right. right. split; [exact Hcc|]. split; [|exact Hr].
    unfold reads_exact in *. rewrite forallb_app, Hev, Hx. reflexivity.
Qed.

(** The loop again, with the chunk that fails located in the range. *)
Lemma touch_from_post_in (vm : vm_t) (fd addr end_addr : Z) (fuel : nat) :
  forall (current_addr : Z) (s : state),
    addr <= current_addr ->
    (current_addr < end_addr ->
     (current_addr = addr \/ current_addr mod 4096 = 0)
     /\ end_addr - (current_addr - current_addr mod 4096) <= 4096 * Z.of_nat fuel) ->
    touch_post_in cfg env vm fd addr end_addr
      (touch_from env fuel vm (guest_write_address cfg env) fd addr current_addr end_addr s).
Proof.
  induction fuel as [|fuel IH]; intros cur s Hlo Hfuel.
  - cbn [touch_from]. destruct (Z.ltb_spec cur end_addr) as [Hlt | Hge].
    + pose proof (Z.mod_pos_bound cur 4096). lia.
    + left. split; reflexivity.
  - cbn [touch_from]. destruct (Z.ltb_spec cur end_addr) as [Hlt | Hge];
      [| left; split; reflexivity].
    destruct (Hfuel Hlt) as [Hstart Hleft].
    assert (Hchunk : chunk_start addr end_addr cur)
      by (unfold chunk_start, PAGE_SIZE_4K; split; [lia | exact Hstart]).
    unfold PAGE_SIZE_4K.
    set (next := Z.min end_addr (cur - cur mod 4096 + 4096)).
    pose proof (Z.mod_pos_bound cur 4096 ltac:(lia)) as Hmod.
    assert (Hsz : 0 <= next - cur <= 4096) by (subst next; lia).
    assert (Hnext : next < end_addr ->
                    (next = addr \/ next mod 4096 = 0)
                    /\ end_addr - (next - next mod 4096) <= 4096 * Z.of_nat fuel).
    { intros Hn. assert (Hnx : next = cur - cur mod 4096 + 4096) by (subst next; lia).
      assert (next mod 4096 = 0).
      { rewrite Hnx. clear - Hmod. Z.to_euclidean_division_equations. lia. }
      split; [right; assumption | lia]. }
    specialize (IH next).
    destruct (guest_write_address_run vm cur (vmm_vaddr env cur) (next - cur)
                (cur - addr) fd s Hsz)
      as (n & data & s' & rest & Hs & He & Hrest & Hcase).
    unfold bind.
    destruct (guest_write_address cfg env vm cur (vmm_vaddr env cur) (next - cur)
                (cur - addr) fd s) as [[r s1] ev].
    cbn [result_of state_of events_of fst snd] in *. subst s1 ev.
    destruct Hcase as [(Hne & -> & ->) | (-> & [(-> & Hcap) | [(Hcc & Hcap & ->) | (Hcc & Herr & ->)]])].
    + cbn. right. left. exists [], cur, (next - cur), n, data.
      repeat split; try reflexivity. exact Hne.
    + cbn [Z.eqb negb].
      specialize (IH s' ltac:(subst next; lia) Hnext).
      pose proof (touch_post_in_prepend vm fd addr end_addr
                    (EvRead fd (next - cur) (next - cur) :: EvGuestWrite cur data :: rest)
                    _ ltac:(unfold reads_exact in *; cbn [forallb read_exact];
                              rewrite Z.eqb_refl; exact Hrest) IH) as Hp.
      destruct (touch_from env fuel vm (guest_write_address cfg env) fd addr next end_addr s')
        as [[r2 s2] ev2].
      exact Hp.
    + cbn. right. right. split; [exact Hcc|]. split.
      * unfold reads_exact, events_of in *. cbn [snd forallb read_exact].
        rewrite Z.eqb_refl, app_nil_r. exact Hrest.
      * exists cur. split; [exact Hchunk|]. left. split; [reflexivity | exact Hcap].
    + right. right. split; [exact Hcc|]. split.
      * unfold reads_exact, events_of in *. cbn [snd forallb read_exact].
        rewrite Z.eqb_refl. exact Hrest.
      * exists cur. split; [exact Hchunk|]. right. split; [reflexivity | exact Herr].
Qed.

Lemma vm_ram_touch_post_in (vm : vm_t) (addr sz fd : Z) (s : state) :
  0 <= sz ->
  touch_post_in cfg env vm fd addr (addr + sz)
    (vm_ram_touch env vm addr sz (guest_write_address cfg env) fd s).
Proof.
  intros Hsz. unfold vm_ram_touch. apply touch_from_post_in; [lia|].
  intros _. split; [left; reflexivity|]. unfold PAGE_SIZE_4K.
  pose proof (Z.mod_pos_bound addr 4096 ltac:(lia)).
  rewrite Nat2Z.inj_add, Z2Nat.id by (apply Z.div_pos; lia).
  Z.to_euclidean_division_equations. lia.
Qed.
End ChunkRuns.
Section LoadRuns.
Variable cfg : config.
Variable env : environment.

Lemma load_image_run (vm : vm_t) (name : string) (addr : Z) (s : state)
  (content : list byte) :
  fs_lookup env name = Some content ->
  let fd := fresh_fd (open_fds s) in
  let L := wrap cfg (Z.of_nat (List.length content)) in
  let s1 := {| open_fds := (fd, (name, 0)) :: open_fds s; nreads := nreads s |} in
  let pre := [EvOpen name fd;
              EvMarkAllocated addr (ROUND_UP cfg L PAGE_SIZE_4K)
                (mark_allocated_ok env addr (ROUND_UP cfg L PAGE_SIZE_4K))] in
  let derr := map_deferred_err env addr L in
  let mid := if cfg_defer_memory_map cfg then [EvMapDeferred addr L derr] else [] in
  let t := vm_ram_touch env vm addr L (guest_write_address cfg env) fd s1 in
  load_image cfg env vm name addr s =
    if 0 =? L then (Ret (-1, None), s1, [EvOpen name fd; EvLog LOG_zero_size])
    else if cfg_defer_memory_map cfg && negb (derr =? 0)
    then (Ret (-1, None), s1, pre ++ mid ++ [EvLog LOG_deferred_map_failed])
    else match result_of t with
         | Ret e =>
             if negb (e =? 0)
             then (Ret (-1, None), closed_fd fd (state_of t),
                   pre ++ mid ++ events_of t ++ [EvLog LOG_failed_to_load; EvClose fd])
             else (Ret (0, Some L), closed_fd fd (state_of t),
                   pre ++ mid ++ events_of t ++ [EvClose fd])
         | Abort => (Abort, state_of t, pre ++ mid ++ events_of t)
         | Undef => (Undef, state_of t, pre ++ mid ++ events_of t)
         end.
Proof.
  intros Hfs fd L s1 pre derr mid t.
  assert (Hfd : 3 <= fd) by apply fresh_fd_ge.
  unfold load_image.
  erewrite bind_Ret by (unfold sys_open; rewrite Hfs; reflexivity).
  fold fd. fold s1.
  destruct (Z.eqb_spec fd (-1)) as [|_]; [lia|].
  erewrite bind_Ret;
    [| unfold sys_lseek, s1; cbn [open_fds nreads fd_lookup]; rewrite Z.eqb_refl, Hfs;
       destruct (Z.ltb_spec (Z.of_nat (List.length content) + 0) 0) as [|_]; [lia|];
       cbn [fd_update]; rewrite Z.eqb_refl; reflexivity].
  erewrite bind_Ret;
    [| unfold sys_lseek; cbn [open_fds nreads fd_lookup]; rewrite Z.eqb_refl, Hfs;
       cbn [Z.ltb Z.compare fd_update]; rewrite Z.eqb_refl; reflexivity].
  rewrite Z.add_0_r. fold L. fold s1. rewrite !after_after. cbn [app].
  destruct (0 =? L); [reflexivity|].
  erewrite bind_Ret by reflexivity. rewrite after_after. cbn [app]. fold pre.
  assert (Htail :
    after (pre ++ mid)
      ((if negb (0 =? 0)
        then log LOG_deferred_map_failed;; ret (-1, None)
        else
          error <- vm_ram_touch env vm addr L (guest_write_address cfg env) fd;;
          (if negb (error =? 0)
           then log LOG_failed_to_load;; sys_close fd;; ret (-1, None)
           else sys_close fd;; ret (0, Some L))) s1) =
    match result_of t with
    | Ret e =>
        if negb (e =? 0)
        then (Ret (-1, None), closed_fd fd (state_of t),
              pre ++ mid ++ events_of t ++ [EvLog LOG_failed_to_load; EvClose fd])
        else (Ret (0, Some L), closed_fd fd (state_of t),
              pre ++ mid ++ events_of t ++ [EvClose fd])
    | Abort => (Abort, state_of t, pre ++ mid ++ events_of t)
    | Undef => (Undef, state_of t, pre ++ mid ++ events_of t)
    end).
  { change (0 =? 0) with true. cbn [negb]. subst t. cbv zeta.
    destruct (vm_ram_touch env vm addr L (guest_write_address cfg env) fd s1)
      as [[[e| |] st] ev] eqn:Et.
    - erewrite bind_Ret by exact Et.
      cbn [result_of state_of events_of fst snd]. rewrite after_after.
      destruct (e =? 0); cbn [negb]; unfold after, bind, log, emit, sys_close, ret, closed_fd;
        cbn [result_of state_of events_of fst snd app];
        rewrite <- !app_assoc; reflexivity.
    - erewrite bind_Abort by exact Et. unfold after.
      cbn [result_of state_of events_of fst snd]. rewrite <- app_assoc. reflexivity.
    - erewrite bind_Undef by exact Et. unfold after.
      cbn [result_of state_of events_of fst snd]. rewrite <- app_assoc. reflexivity. }
  destruct (cfg_defer_memory_map cfg); cbn [andb].
  - erewrite bind_Ret by reflexivity. rewrite after_after. fold derr.
    destruct (derr =? 0) eqn:Ed; cbn [negb].
    + rewrite <- Htail. reflexivity.
    + unfold after, bind, log, emit, ret, mid.
      cbn [result_of state_of events_of fst snd app]. rewrite <- app_assoc. reflexivity.
  - erewrite bind_Ret by reflexivity. rewrite after_after.
    rewrite <- Htail. subst mid. reflexivity.
Qed.
End LoadRuns.

Lemma reads_exact_app (a b : list event) :
  reads_exact (a ++ b) = reads_exact a && reads_exact b.
Proof. unfold reads_exact. apply forallb_app. Qed.

(** ** C5: an empty artifact *)

(** C5. [load_image] on an artifact of length zero returns -1 with the
    zero-size message, the error [EmptyArtifact] of the specification, and
    stores no size; the only events of the run are the opening of the
    artifact and that message, so no range is marked allocated and no byte
    is written. *)
Theorem load_image_empty_artifact (cfg : config) (env : environment) (vm : vm_t)
  (name : string) (addr : Z) (s : state) :
  fs_lookup env name = Some [] ->
  result_of (load_image cfg env vm name addr s) = Ret (-1, None)
  /\ events_of (load_image cfg env vm name addr s)
     = [EvOpen name (fresh_fd (open_fds s)); EvLog LOG_zero_size]
  /\ error_of_log LOG_zero_size = Some EmptyArtifact.
Proof.
  intros Hfs. rewrite (load_image_run cfg env vm name addr s [] Hfs).
  cbn [List.length Z.of_nat]. unfold wrap. rewrite Z.mod_0_l.
  - repeat split; reflexivity.
  - destruct (word_bits_cases cfg) as [E | E]; rewrite E; discriminate.
Qed.

Lemma load_image_empty_artifact_witness :
  result_of (load_image cfg64 (quiet_env (one_file "empty" [])) (vm_at 0x40000000)
               "empty" 0x40000000 no_fds) = Ret (-1, None)
  /\ events_of (load_image cfg64 (quiet_env (one_file "empty" [])) (vm_at 0x40000000)
                  "empty" 0x40000000 no_fds)
     = [EvOpen "empty" (fresh_fd (open_fds no_fds)); EvLog LOG_zero_size]
  /\ error_of_log LOG_zero_size = Some EmptyArtifact.
Proof.
  apply (load_image_empty_artifact cfg64 (quiet_env (one_file "empty" []))
           (vm_at 0x40000000) "empty" 0x40000000 no_fds).
  reflexivity.
Defined.

(** ** C4: short reads *)

(** C4 as stated fails: the page of the only chunk has no cap in the VMM
    vspace; the single read of the load delivers the 100 bytes asked for,
    and the load fails all the same. *)
Lemma load_image_exact_reads_not_enough :
  reads_exact (events_of (load_image cfg64 (env_no_cap (one_file "kernel" raw_100))
                            (vm_at 0x40000000) "kernel" 0x40000000 no_fds)) = true
  /\ In (EvRead 3 100 100)
       (events_of (load_image cfg64 (env_no_cap (one_file "kernel" raw_100))
                     (vm_at 0x40000000) "kernel" 0x40000000 no_fds))
  /\ result_of (load_image cfg64 (env_no_cap (one_file "kernel" raw_100))
                  (vm_at 0x40000000) "kernel" 0x40000000 no_fds) = Ret (-1, None).
Proof.
  vm_compute. repeat split; auto.
Qed.

(** C4, as the code has it. For an artifact of length [L > 0]: a load that
    succeeds reports [L] and every read of it was exact; a read that
    returns another count than asked for ends the load at once, with the
    short-read message ([TruncatedRead]), no further read, the descriptor
    closed and no size stored; and if deferred mapping (where configured)
    and the cache maintenance of the pages (where the VM asks for it) do
    of the chunks written do not fail, a load whose reads are all exact
    succeeds. *)
Theorem load_image_reads (cfg : config) (env : environment) (vm : vm_t)
  (name : string) (addr : Z) (s : state) (content : list byte) :
  fs_lookup env name = Some content ->
  0 < Z.of_nat (List.length content) < 2 ^ word_bits cfg ->
  (forall rc out,
      result_of (load_image cfg env vm name addr s) = Ret (rc, out) -> rc = 0 ->
      out = Some (Z.of_nat (List.length content))
      /\ reads_exact (events_of (load_image cfg env vm name addr s)) = true)
  /\ (reads_exact (events_of (load_image cfg env vm name addr s)) = false ->
      result_of (load_image cfg env vm name addr s) = Ret (-1, None)
      /\ exists pre fd p sz len data,
          events_of (load_image cfg env vm name addr s)
          = pre ++ [EvRead fd sz len; EvGuestWrite p data;
                    EvLog (LOG_short_read (wrap cfg len) sz);
                    EvLog LOG_failed_to_load; EvClose fd]
          /\ reads_exact pre = true /\ len <> sz
          /\ error_of_log (LOG_short_read (wrap cfg len) sz) = Some TruncatedRead)
  /\ ((cfg_defer_memory_map cfg = true ->
       map_deferred_err env addr (Z.of_nat (List.length content)) = 0) ->
      (clean_cache vm = true ->
       forall p, chunk_start addr (addr + Z.of_nat (List.length content)) p ->
                 vspace_cap env (vmm_vaddr env p) <> seL4_CapNull
                 /\ clean_invalidate_err env (vspace_cap env (vmm_vaddr env p)) = 0) ->
      reads_exact (events_of (load_image cfg env vm name addr s)) = true ->
      result_of (load_image cfg env vm name addr s)
      = Ret (0, Some (Z.of_nat (List.length content)))).
Proof.
  intros Hfs HL.
  rewrite (load_image_run cfg env vm name addr s content Hfs).
  rewrite (wrap_small cfg _ (conj (Z.lt_le_incl _ _ (proj1 HL)) (proj2 HL))).
  set (L := Z.of_nat (List.length content)) in *.
  set (fd := fresh_fd (open_fds s)).
  set (s1 := {| open_fds := (fd, (name, 0)) :: open_fds s; nreads := nreads s |}).
  destruct (Z.eqb_spec 0 L) as [|_]; [lia|].
  pose proof (vm_ram_touch_post_in cfg env vm addr L fd s1 ltac:(lia)) as Hpost.
  set (t := vm_ram_touch env vm addr L (guest_write_address cfg env) fd s1) in *.
  set (pre := [EvOpen name fd; EvMarkAllocated addr (ROUND_UP cfg L PAGE_SIZE_4K)
                 (mark_allocated_ok env addr (ROUND_UP cfg L PAGE_SIZE_4K))]).
  set (derr := map_deferred_err env addr L).
  set (mid := if cfg_defer_memory_map cfg then [EvMapDeferred addr L derr] else []).
  assert (Hpre : reads_exact pre = true) by reflexivity.
  assert (Hmid : reads_exact mid = true)
    by (subst mid; destruct (cfg_defer_memory_map cfg); reflexivity).
  destruct (cfg_defer_memory_map cfg && negb (derr =? 0)) eqn:Hd.
  { cbn [result_of events_of fst snd].
    assert (Hex : reads_exact (pre ++ mid ++ [EvLog LOG_deferred_map_failed]) = true)
      by (rewrite !reads_exact_app, Hpre, Hmid; reflexivity).
    apply andb_true_iff in Hd. destruct Hd as [Hd1 Hd2].
    apply negb_true_iff, Z.eqb_neq in Hd2.
    split; [| split].
    - intros rc out H Hrc. subst rc. discriminate H.
    - intros H. rewrite Hex in H. discriminate H.
    - intros Hdef _ _. specialize (Hdef Hd1). contradiction. }
  destruct Hpost as [[Hr Hx] | [(pre' & p & sz & len & data & Hr & He & Hpre' & Hne) | (Hcc & Hx & q & Hq & Hr)]].
  - rewrite Hr. cbn [Z.eqb negb result_of events_of fst snd].
    assert (Hex : reads_exact (pre ++ mid ++ events_of t ++ [EvClose fd]) = true)
      by (rewrite !reads_exact_app, Hpre, Hmid, Hx; reflexivity).
    split; [| split].
    + intros rc out H _. injection H as _ <-. split; [reflexivity | exact Hex].
    + intros H. rewrite Hex in H. discriminate H.
    + intros _ _ _. reflexivity.
  - rewrite Hr. cbn [Z.eqb negb result_of events_of fst snd]. rewrite He.
    assert (Hnex : reads_exact [EvRead fd sz len; EvGuestWrite p data;
                                EvLog (LOG_short_read (wrap cfg len) sz)] = false).
    { unfold reads_exact. cbn [forallb read_exact].
      apply Z.eqb_neq in Hne. rewrite Hne. reflexivity. }
    split; [| split].
    + intros rc out H Hrc. subst rc. discriminate H.
    + intros _. split; [reflexivity|].
      exists (pre ++ mid ++ pre'), fd, p, sz, len, data.
      split; [| split; [| split; [exact Hne | reflexivity]]].
      * rewrite <- !app_assoc. reflexivity.
      * rewrite !reads_exact_app, Hpre, Hmid, Hpre'. reflexivity.
    + intros _ _ H. rewrite !reads_exact_app, Hnex in H.
      rewrite !andb_false_r in H. discriminate H.
  - assert (Hex : forall tl, reads_exact tl = true ->
                             reads_exact (pre ++ mid ++ events_of t ++ tl) = true)
      by (intros tl Htl; rewrite !reads_exact_app, Hpre, Hmid, Hx, Htl; reflexivity).
    destruct Hr as [[Hr Hv] | [Hr Hv]]; rewrite Hr;
      cbn [Z.eqb negb result_of events_of fst snd].
    + split; [| split].
      * intros rc out H Hrc. subst rc. discriminate H.
      * intros H. rewrite Hex in H by reflexivity. discriminate H.
      * intros _ Hcache _. destruct (Hcache Hcc q Hq) as [Hc _]. contradiction.
    + assert (Hex' : reads_exact (pre ++ mid ++ events_of t) = true)
        by (rewrite <- (app_nil_r (events_of t)); apply Hex; reflexivity).
      split; [| split].
      * intros rc out H. discriminate H.
      * intros H. rewrite Hex' in H. discriminate H.
      * intros _ Hcache _. destruct (Hcache Hcc q Hq) as [_ Hc]. contradiction.
Qed.

Lemma load_image_reads_witness :
  result_of (load_image cfg64 (env_short_read (one_file "kernel" raw_100))
               (vm_at 0x40000000) "kernel" 0x40000000 after_header) = Ret (-1, None)
  /\ result_of (load_image cfg64 (env_one_cap (one_file "kernel" raw_100))
                  (vm_at 0x40000000) "kernel" 0x40000000 after_header) = Ret (0, Some 100).
Proof.
  split.
  - apply (proj1 (proj2 (load_image_reads cfg64 (env_short_read (one_file "kernel" raw_100))
                           (vm_at 0x40000000) "kernel" 0x40000000 after_header raw_100
                           eq_refl (conj eq_refl eq_refl)))).
    reflexivity.
  - apply (proj2 (proj2 (load_image_reads cfg64 (env_one_cap (one_file "kernel" raw_100))
                           (vm_at 0x40000000) "kernel" 0x40000000 after_header raw_100
                           eq_refl (conj eq_refl eq_refl)))).
    + discriminate.
    + intros _ p [Hrange Hstart].
      assert (Hp : p = 0x40000000).
      { change (Z.of_nat (List.length raw_100)) with 100 in Hrange.
        unfold PAGE_SIZE_4K in Hstart. destruct Hstart as [E | E]; [exact E|].
        clear - Hrange E. Z.to_euclidean_division_equations. lia. }
      subst p. split; [discriminate | reflexivity].
    + reflexivity.
Defined.

(** ** C6: the allocation request *)

Lemma vm_ram_touch_same (cfg : config) (e1 e2 : environment) (vm : vm_t)
  (addr sz fd : Z) (s : state) :
  same_but_mark_allocated e1 e2 ->
  vm_ram_touch e1 vm addr sz (guest_write_address cfg e1) fd s
  = vm_ram_touch e2 vm addr sz (guest_write_address cfg e2) fd s.
Proof.
  destruct e1, e2. unfold same_but_mark_allocated.
  cbn [fs_lookup read_fault map_deferred_err vmm_vaddr vspace_cap clean_invalidate_err].
  intros (-> & -> & -> & -> & -> & ->). reflexivity.
Qed.

(** C6 as stated fails: the memory manager cannot mark the range
    allocated, and the load writes the image and succeeds. *)
Lemma load_image_ignores_mark_allocated :
  load_image cfg64 (env_mark_fails (one_file "kernel" raw_100))
    (vm_at 0x40000000) "kernel" 0x40000000 no_fds
  = (Ret (0, Some 100), after_header,
     [EvOpen "kernel" 3; EvMarkAllocated 0x40000000 4096 false;
      EvRead 3 100 100; EvGuestWrite 0x40000000 raw_100;
      EvCleanInvalidate 1 0; EvClose 3]).
Proof. vm_compute. reflexivity. Qed.

(** C6, as the code has it. In every load of a non-empty artifact the
    request to mark [load_addr, load_addr + ROUND_UP(length, 4096))
    allocated is the first thing done after the artifact is opened, so it
    comes before any byte is written; the request returns nothing to the
    loader, and the load goes on in the same way however the request went. *)
Theorem load_image_mark_allocated_first (cfg : config) (env env' : environment)
  (vm : vm_t) (name : string) (addr : Z) (s : state) (content : list byte) :
  fs_lookup env name = Some content ->
  0 < Z.of_nat (List.length content) < 2 ^ word_bits cfg ->
  same_but_mark_allocated env env' ->
  (exists rest,
      events_of (load_image cfg env vm name addr s)
      = EvOpen name (fresh_fd (open_fds s))
        :: EvMarkAllocated addr (ROUND_UP cfg (Z.of_nat (List.length content)) PAGE_SIZE_4K)
             (mark_allocated_ok env addr
                (ROUND_UP cfg (Z.of_nat (List.length content)) PAGE_SIZE_4K))
        :: rest)
  /\ result_of (load_image cfg env' vm name addr s)
     = result_of (load_image cfg env vm name addr s)
  /\ state_of (load_image cfg env' vm name addr s)
     = state_of (load_image cfg env vm name addr s)
  /\ from_third (events_of (load_image cfg env' vm name addr s))
     = from_third (events_of (load_image cfg env vm name addr s)).
Proof.
  intros Hfs HL Hsame.
  assert (Hfs' : fs_lookup env' name = Some content)
    by (destruct Hsame as (<- & _); exact Hfs).
  rewrite (load_image_run cfg env vm name addr s content Hfs).
  rewrite (load_image_run cfg env' vm name addr s content Hfs').
  rewrite (wrap_small cfg _ (conj (Z.lt_le_incl _ _ (proj1 HL)) (proj2 HL))).
  rewrite <- (vm_ram_touch_same cfg env env' vm _ _ _ _ Hsame).
  assert (Hd : map_deferred_err env' = map_deferred_err env)
    by (destruct Hsame as (_ & _ & <- & _); reflexivity).
  rewrite Hd.
  destruct (Z.eqb_spec 0 (Z.of_nat (List.length content))) as [|_]; [lia|].
  destruct (cfg_defer_memory_map cfg && negb (map_deferred_err env addr _ =? 0)).
  { split; [eexists; reflexivity | repeat split]. }
  destruct (vm_ram_touch env vm addr (Z.of_nat (List.length content))
              (guest_write_address cfg env) (fresh_fd (open_fds s)) _)
    as [[[e| |] st] ev]; cbn [result_of state_of events_of fst snd];
    [destruct (negb (e =? 0))| |];
    (split; [eexists; reflexivity | repeat split]).
Qed.

Lemma load_image_mark_allocated_first_witness :
  result_of (load_image cfg64 (env_mark_fails (one_file "kernel" raw_100))
               (vm_at 0x40000000) "kernel" 0x40000000 no_fds)
  = result_of (load_image cfg64 (quiet_env (one_file "kernel" raw_100))
                 (vm_at 0x40000000) "kernel" 0x40000000 no_fds).
Proof.
  apply (load_image_mark_allocated_first cfg64 (quiet_env (one_file "kernel" raw_100))
           (env_mark_fails (one_file "kernel" raw_100))
           (vm_at 0x40000000) "kernel" 0x40000000 no_fds raw_100).
  - reflexivity.
  - split; reflexivity.
  - repeat split.
Defined.

(** ** What the sniffing phase leaves behind *)

Lemma skipn_repeat_x00 (k n : nat) :
  skipn k (repeat x00 n) = repeat x00 (n - k).
Proof.
  revert k. induction n as [|n IH]; intros [|k]; cbn [skipn repeat Nat.sub];
    try reflexivity.
  apply IH.
Qed.

Lemma memstore_zero_header (data : list byte) :
  memstore zero_header data = data ++ repeat x00 (64 - List.length data).
Proof.
  unfold memstore, zero_header, sizeof_Elf64_Ehdr.
  change (Z.to_nat 64) with 64%nat. rewrite skipn_repeat_x00. reflexivity.
Qed.

Section EntryPoints.
Variable cfg : config.
Variable env : environment.

Lemma get_guest_image_type_missing (name : string) (hdr : list byte) (s : state) :
  fs_lookup env name = None ->
  get_guest_image_type cfg env name hdr s
  = (Ret (-1, None, hdr), s, [EvOpen name (-1); EvLog LOG_unable_to_open_image]).
Proof.
  intros Hfs. unfold get_guest_image_type.
  erewrite bind_Ret by (unfold sys_open; rewrite Hfs; reflexivity).
  reflexivity.
Qed.

(** A classification that succeeded read a full header: the buffer holds
    the first 64 bytes of the artifact, and the descriptor is closed. *)
Lemma get_guest_image_type_success (name : string) (s s1 : state)
  (ot : option img_type) (hdr : list byte) (ev : list event) :
  get_guest_image_type cfg env name zero_header s = (Ret (0, ot, hdr), s1, ev) ->
  exists content t,
    fs_lookup env name = Some content
    /\ (64 <= List.length content)%nat
    /\ hdr = firstn 64 content
    /\ ot = Some t /\ image_get_type hdr = Some t
    /\ s1 = {| open_fds := open_fds s; nreads := S (nreads s) |}
    /\ ev = [EvOpen name (fresh_fd (open_fds s)); EvRead (fresh_fd (open_fds s)) 64 64;
             EvClose (fresh_fd (open_fds s))].
Proof.
  destruct (fs_lookup env name) as [content|] eqn:Hfs.
  2:{ rewrite get_guest_image_type_missing by exact Hfs. discriminate. }
  rewrite (get_guest_image_type_run cfg env name s content Hfs).
  unfold sizeof_Elf64_Ehdr.
  set (avail := Z.max 0 (Z.min 64 (Z.of_nat (List.length content) - 0))).
  set (n := match read_fault env (nreads s) with
            | Some k => Z.min k avail
            | None => avail
            end).
  assert (Hn : n <= avail) by (subst n; destruct (read_fault env (nreads s)); lia).
  destruct (n <? 0); [discriminate|].
  destruct (Z.eqb_spec n 64) as [H64 | _]; [|discriminate].
  assert (Hlen : (64 <= List.length content)%nat) by lia.
  rewrite H64. change (Z.to_nat 64) with 64%nat.
  rewrite memstore_zero_header, length_firstn, Nat.min_l by exact Hlen.
  cbn [Nat.sub repeat]. rewrite app_nil_r.
  destruct (image_get_type (firstn 64 content)) as [t|] eqn:Ht; [|discriminate].
  intros H. injection H as <- <- <- <-.
  exists content, t. repeat split; try assumption; reflexivity.
Qed.

Lemma load_guest_kernel_image_after (vm : vm_t) (name : string) (base : Z)
  (s s1 : state) (t : img_type) (hdr : list byte) (ev1 : list event) :
  get_guest_image_type cfg env name zero_header s = (Ret (0, Some t, hdr), s1, ev1) ->
  load_guest_kernel_image cfg env vm name base s
  = after ev1
      (match t with
       | IMG_BIN => load_at cfg env vm name (entry vm)
       | IMG_ZIMAGE =>
           load_addr <- defined (zImage_get_load_address cfg hdr base) ;;
           load_at cfg env vm name load_addr
       | _ => log LOG_unknown_kernel_format ;; ret (0, None)
       end s1).
Proof.
  intros H. unfold load_guest_kernel_image.
  erewrite bind_Ret by exact H. cbn [Z.eqb negb].
  erewrite bind_Ret by reflexivity. rewrite after_after, app_nil_r. reflexivity.
Qed.

Lemma load_guest_module_image_after (vm : vm_t) (name : string) (base : Z)
  (s s1 : state) (t : img_type) (hdr : list byte) (ev1 : list event) :
  get_guest_image_type cfg env name zero_header s = (Ret (0, Some t, hdr), s1, ev1) ->
  load_guest_module_image cfg env vm name base s
  = after ev1
      (match t with
       | IMG_DTB | IMG_INITRD_GZ => load_at cfg env vm name base
       | _ => log LOG_unknown_module_format ;; ret (0, None)
       end s1).
Proof.
  intros H. unfold load_guest_module_image.
  erewrite bind_Ret by exact H. cbn [Z.eqb negb].
  erewrite bind_Ret by reflexivity. rewrite after_after, app_nil_r. reflexivity.
Qed.

(** The start field of a header that was classified can be read. *)
Lemma zImage_get_load_address_defined (name : string) (base : Z) (s s1 : state)
  (ot : option img_type) (hdr : list byte) (ev1 : list event) :
  get_guest_image_type cfg env name zero_header s = (Ret (0, ot, hdr), s1, ev1) ->
  exists a, zImage_get_load_address cfg hdr base = Some a.
Proof.
  intros H.
  destruct (get_guest_image_type_success name s s1 ot hdr ev1 H)
    as (content & t' & _ & Hlen & -> & _).
  unfold zImage_get_load_address, zimage_hdr_start.
  rewrite load32_in_range by (rewrite length_firstn; lia).
  eexists. reflexivity.
Qed.

(** A load path that returns the address 0 makes its entry point fail. *)
Lemma vm_load_guest_kernel_zero (vm : vm_t) (name : string) (base align : Z)
  (gki : guest_kernel_image_t) (s s' : state) (sz : option Z) (ev : list event) :
  load_guest_kernel_image cfg env vm name base s = (Ret (0, sz), s', ev) ->
  vm_load_guest_kernel cfg env vm name base align (Some gki) s
  = (Ret (-1, Some gki), s', ev).
Proof.
  intros E. unfold vm_load_guest_kernel.
  erewrite bind_Ret by exact E. unfold after. cbn. rewrite app_nil_r. reflexivity.
Qed.

Lemma vm_load_guest_module_zero (vm : vm_t) (name : string) (base align : Z)
  (img : guest_image_t) (s s' : state) (sz : option Z) (ev : list event) :
  load_guest_module_image cfg env vm name base s = (Ret (0, sz), s', ev) ->
  vm_load_guest_module cfg env vm name base align (Some img) s
  = (Ret (-1, Some img), s', ev).
Proof.
  intros E. unfold vm_load_guest_module.
  erewrite bind_Ret by exact E. unfold after. cbn. rewrite app_nil_r. reflexivity.
Qed.

Lemma load_at_zero (vm : vm_t) (name : string) (s1 s2 : state) (len : Z)
  (ev2 : list event) :
  load_image cfg env vm name 0 s1 = (Ret (0, Some len), s2, ev2) ->
  load_at cfg env vm name 0 s1 = (Ret (0, Some len), s2, ev2).
Proof.
  intros Hload. unfold load_at. erewrite bind_Ret by exact Hload.
  unfold after. cbn. rewrite app_nil_r. reflexivity.
Qed.
End EntryPoints.

(** ** C1: the load address of each format *)



(** ** C7: an artifact shorter than the header *)

(** C7 as stated fails: an artifact of 10 bytes leaves the buffer
    zero-padded, but it is not classified: [get_guest_image_type] returns
    -1 without an image type, and the load fails. *)
Lemma short_artifact_not_classified :
  get_guest_image_type cfg64 (quiet_env (one_file "kernel" raw_10)) "kernel"
    zero_header no_fds
  = (Ret (-1, None, raw_10 ++ repeat x00 54), after_header,
     [EvOpen "kernel" 3; EvRead 3 64 10; EvLog LOG_could_not_read_len; EvClose 3])
  /\ result_of (vm_load_guest_kernel cfg64 (quiet_env (one_file "kernel" raw_10))
                  (vm_at 0x40000000) "kernel" 0x40000000 0 (Some blank_kernel_image)
                  no_fds)
     = Ret (-1, Some blank_kernel_image).
Proof. split; vm_compute; reflexivity. Qed.

(** C7, as the code has it. For an artifact shorter than the header the
    buffer, zeroed by the caller, holds the bytes read followed by zeros
    and keeps its 64 bytes, so nothing is read outside it; the read returns
    fewer than 64 bytes, and [get_guest_image_type] logs that the length
    could not be read ([ArtifactUnreadable]), closes the artifact and
    returns -1 without classifying; both entry points return -1 and leave
    the descriptor of the image as it was. *)
Theorem short_artifact_rejected (cfg : config) (env : environment) (name : string)
  (content : list byte) (s : state) :
  fs_lookup env name = Some content ->
  Z.of_nat (List.length content) < sizeof_Elf64_Ehdr ->
  (exists n data,
      -1 <= n < sizeof_Elf64_Ehdr
      /\ data = firstn (Z.to_nat n) content
      /\ Z.of_nat (List.length (data ++ repeat x00 (64 - List.length data)))
         = sizeof_Elf64_Ehdr
      /\ get_guest_image_type cfg env name zero_header s
         = (Ret (-1, None, data ++ repeat x00 (64 - List.length data)),
            {| open_fds := open_fds s; nreads := S (nreads s) |},
            [EvOpen name (fresh_fd (open_fds s));
             EvRead (fresh_fd (open_fds s)) sizeof_Elf64_Ehdr n;
             EvLog LOG_could_not_read_len; EvClose (fresh_fd (open_fds s))]))
  /\ error_of_log LOG_could_not_read_len = Some ArtifactUnreadable
  /\ (forall vm base align gki,
         result_of (vm_load_guest_kernel cfg env vm name base align (Some gki) s)
         = Ret (-1, Some gki))
  /\ (forall vm base align img,
         result_of (vm_load_guest_module cfg env vm name base align (Some img) s)
         = Ret (-1, Some img)).
Proof.
  intros Hfs Hshort. unfold sizeof_Elf64_Ehdr in Hshort.
  pose proof (get_guest_image_type_run cfg env name s content Hfs) as Hrun.
  cbv zeta in Hrun. unfold sizeof_Elf64_Ehdr in *.
  set (avail := Z.max 0 (Z.min 64 (Z.of_nat (List.length content) - 0))) in *.
  set (n := match read_fault env (nreads s) with
            | Some k => Z.min k avail
            | None => avail
            end) in *.
  assert (Hn : n < 64) by (subst n avail; destruct (read_fault env (nreads s)); lia).
  set (n' := if n <? 0 then -1 else n).
  assert (Hn' : -1 <= n' < 64) by (subst n'; destruct (Z.ltb_spec n 0); lia).
  assert (Hgg : get_guest_image_type cfg env name zero_header s
                = (Ret (-1, None, memstore zero_header (firstn (Z.to_nat n') content)),
                   {| open_fds := open_fds s; nreads := S (nreads s) |},
                   [EvOpen name (fresh_fd (open_fds s));
                    EvRead (fresh_fd (open_fds s)) 64 n';
                    EvLog LOG_could_not_read_len; EvClose (fresh_fd (open_fds s))])).
  { rewrite Hrun. subst n'. destruct (Z.ltb_spec n 0); [reflexivity|].
    destruct (Z.eqb_spec n 64); [lia | reflexivity]. }
  rewrite memstore_zero_header in Hgg.
  split; [| split; [reflexivity | split]].
  - exists n', (firstn (Z.to_nat n') content).
    split; [exact Hn' | split; [reflexivity | split; [| exact Hgg]]].
    rewrite length_app, repeat_length.
    assert (List.length (firstn (Z.to_nat n') content) <= 64)%nat
      by (rewrite length_firstn; lia).
    lia.
  - intros vm base align gki. unfold vm_load_guest_kernel, load_guest_kernel_image.
    erewrite bind_Ret by (erewrite bind_Ret by exact Hgg; reflexivity).
    reflexivity.
  - intros vm base align img. unfold vm_load_guest_module, load_guest_module_image.
    erewrite bind_Ret by (erewrite bind_Ret by exact Hgg; reflexivity).
    reflexivity.
Qed.

Lemma short_artifact_rejected_witness :
  result_of (vm_load_guest_kernel cfg64 (quiet_env (one_file "kernel" raw_10))
               (vm_at 0x40000000) "kernel" 0x40000000 0 (Some blank_kernel_image)
               no_fds)
  = Ret (-1, Some blank_kernel_image).
Proof.
  apply (proj1 (proj2 (proj2
           (short_artifact_rejected cfg64 (quiet_env (one_file "kernel" raw_10)) "kernel"
              raw_10 no_fds eq_refl eq_refl)))).
Defined.

(** ** C8: the descriptor of the artifact *)

(** C8 does not hold of the code. With deferred mapping configured and
    failing, [vm_load_guest_kernel] returns -1 with the descriptor opened
    by [load_image] still in the table: it is opened a second time as 3 and
    no close follows. [load_image] on an empty artifact leaves its
    descriptor open in the same way. The paths through a failed or a
    finished [vm_ram_touch] close it. *)
Theorem load_image_leaks_descriptor :
  vm_load_guest_kernel cfg64_deferred (env_deferred_fails (one_file "kernel" raw_100))
    (vm_at 0x40000000) "kernel" 0x40000000 0 (Some blank_kernel_image) no_fds
  = (Ret (-1, Some blank_kernel_image),
     {| open_fds := [(3, ("kernel"%string, 0))]; nreads := 1 |},
     [EvOpen "kernel" 3; EvRead 3 64 64; EvClose 3;
      EvOpen "kernel" 3; EvMarkAllocated 0x40000000 4096 true;
      EvMapDeferred 0x40000000 100 (-1); EvLog LOG_deferred_map_failed])
  /\ load_image cfg64 (quiet_env (one_file "empty" [])) (vm_at 0x40000000)
       "empty" 0x40000000 no_fds
     = (Ret (-1, None),
        {| open_fds := [(3, ("empty"%string, 0))]; nreads := 0 |},
        [EvOpen "empty" 3; EvLog LOG_zero_size])
  /\ load_image cfg64 (env_short_read (one_file "kernel" raw_100)) (vm_at 0x40000000)
       "kernel" 0x40000000 after_header
     = (Ret (-1, None), {| open_fds := []; nreads := 2 |},
        [EvOpen "kernel" 3; EvMarkAllocated 0x40000000 4096 true;
         EvRead 3 100 7; EvGuestWrite 0x40000000 (repeat x01 7);
         EvLog (LOG_short_read 7 100); EvLog LOG_failed_to_load; EvClose 3]).
Proof. repeat split; vm_compute; reflexivity. Qed.

(** ** C9: address 0 as the failure value *)

(** C9. An entry point that returns 0 has stored a load address different
    from 0 in the descriptor, and one that returns otherwise returns -1 and
    leaves the descriptor as it was. In particular, when the header is
    classified and the address resolved for its format is 0 (a raw binary
    with the entry point 0, a zImage whose rule gives 0, a module with the
    base 0) and [load_image] streams the whole artifact there, the entry
    point still returns -1 with the descriptor untouched. *)
Theorem zero_load_address_is_failure (cfg : config) (env : environment) (vm : vm_t)
  (name : string) (base align : Z) (s : state) :
  (forall gki,
      match result_of (vm_load_guest_kernel cfg env vm name base align (Some gki) s) with
      | Ret (rc, out) =>
          (rc = 0 /\ exists g, out = Some g /\ load_paddr (kernel_image g) <> 0)
          \/ (rc = -1 /\ out = Some gki)
      | _ => True
      end)
  /\ (forall img,
      match result_of (vm_load_guest_module cfg env vm name base align (Some img) s) with
      | Ret (rc, out) =>
          (rc = 0 /\ exists g, out = Some g /\ load_paddr g <> 0)
          \/ (rc = -1 /\ out = Some img)
      | _ => True
      end)
  /\ (forall t hdr s1 ev1 s2 ev2 len gki,
         get_guest_image_type cfg env name zero_header s
         = (Ret (0, Some t, hdr), s1, ev1) ->
         (t = IMG_BIN /\ entry vm = 0)
         \/ (t = IMG_ZIMAGE /\ zImage_get_load_address cfg hdr base = Some 0) ->
         load_image cfg env vm name 0 s1 = (Ret (0, Some len), s2, ev2) ->
         vm_load_guest_kernel cfg env vm name base align (Some gki) s
         = (Ret (-1, Some gki), s2, ev1 ++ ev2))
  /\ (forall t hdr s1 ev1 s2 ev2 len img,
         get_guest_image_type cfg env name zero_header s
         = (Ret (0, Some t, hdr), s1, ev1) ->
         (t = IMG_DTB \/ t = IMG_INITRD_GZ) /\ base = 0 ->
         load_image cfg env vm name 0 s1 = (Ret (0, Some len), s2, ev2) ->
         vm_load_guest_module cfg env vm name base align (Some img) s
         = (Ret (-1, Some img), s2, ev1 ++ ev2)).
Proof.
  split; [| split; [| split]].
  - intros gki. unfold vm_load_guest_kernel, bind.
    destruct (load_guest_kernel_image cfg env vm name base s)
      as [[[[la kl]| |] s1] t1]; cbn [result_of fst]; try exact I.
    destruct (Z.eqb_spec 0 la) as [|Hla]; cbn [result_of fst]; [right; auto|].
    unfold defined. destruct kl; cbn [result_of fst]; [|exact I].
    left. split; [reflexivity|]. eexists. split; [reflexivity|].
    cbn. congruence.
  - intros img. unfold vm_load_guest_module, bind.
    destruct (load_guest_module_image cfg env vm name base s)
      as [[[[la kl]| |] s1] t1]; cbn [result_of fst]; try exact I.
    destruct (Z.eqb_spec 0 la) as [|Hla]; cbn [result_of fst]; [right; auto|].
    unfold defined. destruct kl; cbn [result_of fst]; [|exact I].
    left. split; [reflexivity|]. eexists. split; [reflexivity|].
    cbn. congruence.
  - intros t hdr s1 ev1 s2 ev2 len gki Hg Hres Hload.
    pose proof (load_guest_kernel_image_after cfg env vm name base s s1 t hdr ev1 Hg)
      as Hk.
    pose proof (load_at_zero cfg env vm name s1 s2 len ev2 Hload) as Hat.
    apply (vm_load_guest_kernel_zero cfg env vm name base align gki s s2 (Some len)).
    rewrite Hk.
    destruct Hres as [[-> He] | [-> Hz]].
    + rewrite He, Hat. reflexivity.
    + erewrite bind_Ret by (unfold defined; rewrite Hz; reflexivity).
      rewrite after_nil, Hat. reflexivity.
  - intros t hdr s1 ev1 s2 ev2 len img Hg [Ht ->] Hload.
    pose proof (load_guest_module_image_after cfg env vm name 0 s s1 t hdr ev1 Hg)
      as Hm.
    pose proof (load_at_zero cfg env vm name s1 s2 len ev2 Hload) as Hat.
    apply (vm_load_guest_module_zero cfg env vm name 0 align img s s2 (Some len)).
    rewrite Hm.
    destruct Ht as [-> | ->]; rewrite Hat; reflexivity.
Qed.

Lemma zero_load_address_is_failure_witness :
  vm_load_guest_kernel cfg64 (quiet_env (one_file "kernel" raw_100)) (vm_at 0)
    "kernel" 0x40000000 0 (Some blank_kernel_image) no_fds
  = (Ret (-1, Some blank_kernel_image), {| open_fds := []; nreads := 2 |},
     [EvOpen "kernel" 3; EvRead 3 64 64; EvClose 3]
     ++ [EvOpen "kernel" 3; EvMarkAllocated 0 4096 true;
         EvRead 3 100 100; EvGuestWrite 0 raw_100;
         EvCleanInvalidate 1 0; EvClose 3]).
Proof.
  apply (proj1 (proj2 (proj2
           (zero_load_address_is_failure cfg64 (quiet_env (one_file "kernel" raw_100))
              (vm_at 0) "kernel" 0x40000000 0 no_fds)))
           IMG_BIN (firstn 64 raw_100) after_header
           [EvOpen "kernel" 3; EvRead 3 64 64; EvClose 3]
           {| open_fds := []; nreads := 2 |}
           [EvOpen "kernel" 3; EvMarkAllocated 0 4096 true;
            EvRead 3 100 100; EvGuestWrite 0 raw_100;
            EvCleanInvalidate 1 0; EvClose 3]
           100 blank_kernel_image).
  - reflexivity.
  - left. split; reflexivity.
  - reflexivity.
Defined.

(** ** C10: the alignment argument *)

(** C10. Neither entry point reads its alignment argument: two calls that
    differ in it alone end with the same result, the same descriptor
    table and the same events. *)
Theorem alignment_is_ignored (cfg : config) (env : environment) (vm : vm_t)
  (name : string) (load_address a1 a2 : Z) (s : state) :
  (forall gki,
      vm_load_guest_kernel cfg env vm name load_address a1 gki s
      = vm_load_guest_kernel cfg env vm name load_address a2 gki s)
  /\ (forall img,
      vm_load_guest_module cfg env vm name load_address a1 img s
      = vm_load_guest_module cfg env vm name load_address a2 img s).
Proof. split; reflexivity. Qed.

(** ** The end-to-end examples of the specification *)

(** A raw binary of three pages, loaded at the entry point 0x40000000: one
    allocation request for the three pages, then three reads, writes and
    cache maintenance operations, one per page, in ascending order. *)
Example three_page_raw_binary :
  result_of (vm_load_guest_kernel cfg64 (quiet_env (one_file "kernel" raw_3_pages))
               (vm_at 0x40000000) "kernel" 0x40000000 0 (Some blank_kernel_image)
               no_fds)
  = Ret (0, Some {| kernel_image :=
                      {| load_paddr := 0x40000000; alignment := 0; size := 12288 |} |})
  /\ written_at
       (events_of (vm_load_guest_kernel cfg64 (quiet_env (one_file "kernel" raw_3_pages))
                     (vm_at 0x40000000) "kernel" 0x40000000 0 (Some blank_kernel_image)
                     no_fds))
     = [0x40000000; 0x40001000; 0x40002000]
  /\ List.length
       (filter is_clean_invalidate
          (events_of (vm_load_guest_kernel cfg64 (quiet_env (one_file "kernel" raw_3_pages))
                        (vm_at 0x40000000) "kernel" 0x40000000 0 (Some blank_kernel_image)
                        no_fds)))
     = 3%nat.
Proof. repeat split; vm_compute; reflexivity. Qed.

(** A zImage without a start address and the base 0x80000000 loads at
    0x80008000. *)
Example zImage_at_base_plus_0x8000 :
  result_of (vm_load_guest_kernel cfg64 (quiet_env (one_file "kernel" zimage_100))
               (vm_at 0x40000000) "kernel" 0x80000000 0 (Some blank_kernel_image)
               no_fds)
  = Ret (0, Some {| kernel_image :=
                      {| load_paddr := 0x80008000; alignment := 0; size := 100 |} |}).
Proof. vm_compute. reflexivity. Qed.

(** A gzip ramdisk is a module, loaded at the base, and no kernel. *)
Example initrd_is_a_module :
  result_of (vm_load_guest_module cfg64 (quiet_env (one_file "initrd" initrd_100))
               (vm_at 0x40000000) "initrd" 0x48000000 0 (Some blank_image) no_fds)
  = Ret (0, Some {| load_paddr := 0x48000000; alignment := 0; size := 100 |})
  /\ result_of (vm_load_guest_kernel cfg64 (quiet_env (one_file "initrd" initrd_100))
                  (vm_at 0x40000000) "initrd" 0x48000000 0 (Some blank_kernel_image)
                  no_fds)
     = Ret (-1, Some blank_kernel_image).
Proof. split; vm_compute; reflexivity. Qed.

(* ===================================================================== *)
(** * Further properties of the loader *)

(** ** The sniffer, test by test *)

Lemma image_get_type_sniffed (file : list byte) :
  (40 <= List.length file)%nat ->
  image_get_type file = Some (sniffed file).
Proof.
  intros Hlen. unfold image_get_type, sniffed.
  rewrite elf_check_magic_spec by lia. cbn [obind].
  destruct (has_elf_magic file); [reflexivity|].
  change (-1 =? 0) with false. cbv iota.
  unfold is_zImage, zimage_hdr_magic. rewrite load32_in_range by lia.
  cbn [obind].
  destruct (word32_le file 36 =? ZIMAGE_MAGIC); [reflexivity|].
  cbn [negb c_bool]. change (1 =? 0) with false. cbv iota.
  destruct (is_uImage_spec file) as (d & Hd & Hd0); [lia|].
  rewrite Hd. cbn [obind]. rewrite Hd0. change 1444480295 with UIMAGE_MAGIC.
  destruct (word32_le file 0 =? UIMAGE_MAGIC); [reflexivity|].
  unfold is_dtb. rewrite load32_in_range by lia. cbn [obind].
  destruct (word32_le file 0 =? DTB_MAGIC); [reflexivity|].
  cbn [negb c_bool]. change (1 =? 0) with false. cbv iota.
  unfold is_initrd. rewrite load16_in_range by lia. cbn [obind].
  destruct (word16_le file 0 =? INITRD_GZ_MAGIC); reflexivity.
Qed.

Lemma byte_at_range (hdr : list byte) (off : nat) : 0 <= byte_at hdr off < 256.
Proof. apply byte_val_range. Qed.

Ltac sig_solve :=
  try match goal with
      | H : Some _ = Some _ |- _ => discriminate H
      end;
  try reflexivity;
  try match goal with
      | H : _ /\ _ |- _ => destruct H
      end;
  try congruence; try lia;
  try (split; first [assumption | reflexivity | lia | congruence]).

(** X1. In a header of at least 40 bytes the signatures at offset 0 exclude
    one another, so the order of the tests matters for the zImage magic
    alone: a header is taken for an ELF file exactly when it starts with
    the ELF magic, for a zImage exactly when it has the zImage magic at
    offset 36 and no ELF magic, and for a uImage, a device tree or a gzip
    ramdisk exactly when it starts with that signature and has no zImage
    magic at offset 36. *)
Theorem image_get_type_signatures (file : list byte) :
  (40 <= List.length file)%nat ->
  (image_get_type file = Some IMG_ELF <-> has_elf_magic file = true)
  /\ (image_get_type file = Some IMG_ZIMAGE <->
      has_elf_magic file = false /\ word32_le file 36 = ZIMAGE_MAGIC)
  /\ (image_get_type file = Some IMG_UIMAGE <->
      word32_le file 0 = UIMAGE_MAGIC /\ word32_le file 36 <> ZIMAGE_MAGIC)
  /\ (image_get_type file = Some IMG_DTB <->
      word32_le file 0 = DTB_MAGIC /\ word32_le file 36 <> ZIMAGE_MAGIC)
  /\ (image_get_type file = Some IMG_INITRD_GZ <->
      word16_le file 0 = INITRD_GZ_MAGIC /\ word32_le file 36 <> ZIMAGE_MAGIC).
Proof.
  intros Hlen. rewrite (image_get_type_sniffed file Hlen). unfold sniffed.
  pose proof (byte_at_range file 0) as R0.
  pose proof (byte_at_range file (0 + 1)) as R1.
  pose proof (byte_at_range file (0 + 2)) as R2.
  pose proof (byte_at_range file (0 + 3)) as R3.
  assert (Helf : has_elf_magic file = true ->
                 byte_at file 0 = 127 /\ byte_at file (0 + 1) = 69).
  { unfold has_elf_magic. cbn [Nat.add]. intros H.
    apply andb_true_iff in H. destruct H as [H _].
    apply andb_true_iff in H. destruct H as [H _].
    apply andb_true_iff in H. destruct H as [H0 H1].
    apply Z.eqb_eq in H0, H1. auto. }
  unfold ZIMAGE_MAGIC, UIMAGE_MAGIC, DTB_MAGIC, INITRD_GZ_MAGIC in *.
  unfold word32_le, word16_le in *.
  destruct (has_elf_magic file) eqn:He.
  { destruct (Helf eq_refl) as [E0 E1].
    split; [| split; [| split; [| split]]]; split; intros H; sig_solve. }
  clear Helf.
  destruct (Z.eqb_spec (byte_at file 36 + 256 * byte_at file (36 + 1)
                        + 65536 * byte_at file (36 + 2)
                        + 16777216 * byte_at file (36 + 3)) 24061976) as [Ez | Ez].
  { split; [| split; [| split; [| split]]]; split; intros H; sig_solve. }
  destruct (Z.eqb_spec (byte_at file 0 + 256 * byte_at file (0 + 1)
                        + 65536 * byte_at file (0 + 2)
                        + 16777216 * byte_at file (0 + 3)) 1444480295) as [Eu | Eu].
  { split; [| split; [| split; [| split]]]; split; intros H; sig_solve. }
  destruct (Z.eqb_spec (byte_at file 0 + 256 * byte_at file (0 + 1)
                        + 65536 * byte_at file (0 + 2)
                        + 16777216 * byte_at file (0 + 3)) 3992849872) as [Ed | Ed].
  { split; [| split; [| split; [| split]]]; split; intros H; sig_solve. }
  destruct (Z.eqb_spec (byte_at file 0 + 256 * byte_at file (0 + 1)) 35615) as [Eg | Eg].
  { split; [| split; [| split; [| split]]]; split; intros H; sig_solve. }
  split; [| split; [| split; [| split]]]; split; intros H; sig_solve.
Qed.

Lemma image_get_type_signatures_witness :
  image_get_type zimage_100 = Some IMG_ZIMAGE.
Proof.
  apply (proj1 (proj2 (image_get_type_signatures zimage_100 ltac:(cbn; lia)))).
  split; reflexivity.
Defined.

(** ** The address of a zImage as a machine word *)

(** X2. For a header of at least 44 bytes and a base that is a machine
    word, the load address of a zImage is a machine word too, and it is 0,
    the value the load paths return for a failure, for one base only: a
    header without start address and the base 2^W - 0x8000. *)
Theorem zImage_get_load_address_zero (cfg : config) (file : list byte) (X : Z) :
  (44 <= List.length file)%nat ->
  0 <= X < 2 ^ word_bits cfg ->
  exists a,
    zImage_get_load_address cfg file X = Some a
    /\ 0 <= a < 2 ^ word_bits cfg
    /\ (a = 0 <-> word32_le file 40 = 0 /\ X = 2 ^ word_bits cfg - 0x8000).
Proof.
  intros Hlen HX. unfold zImage_get_load_address, zimage_hdr_start.
  rewrite load32_in_range by lia. cbn [obind].
  pose proof (word32_le_range file 40) as Hs. change (2 ^ 32) with 4294967296 in Hs.
  eexists. split; [reflexivity|].
  destruct (Z.eqb_spec (word32_le file 40) 0) as [E | E]; cbn [negb].
  - unfold wrap.
    assert (HM : 32768 < 2 ^ word_bits cfg)
      by (destruct (word_bits_cases cfg) as [W | W]; rewrite W; lia).
    set (M := 2 ^ word_bits cfg) in *.
    pose proof (Z.mod_pos_bound (X + 32768) M ltac:(lia)) as Hm.
    split; [exact Hm|]. split.
    + intros H0. split; [exact E|]. subst M.
      destruct (word_bits_cases cfg) as [W | W]; rewrite W in *;
        clear - HX H0; Z.to_euclidean_division_equations; lia.
    + intros [_ ->]. replace (M - 32768 + 32768) with M by lia.
      apply Z_mod_same_full.
  - assert (HM : 4294967296 <= 2 ^ word_bits cfg)
      by (destruct (word_bits_cases cfg) as [W | W]; rewrite W; lia).
    split; [lia|]. split; [intros H0 | intros [H0 _]]; contradiction.
Qed.

Lemma zImage_get_load_address_zero_witness :
  exists a,
    zImage_get_load_address cfg32 zero_header 0xFFFF8000 = Some a
    /\ 0 <= a < 2 ^ word_bits cfg32
    /\ (a = 0 <-> word32_le zero_header 40 = 0 /\ 0xFFFF8000 = 2 ^ word_bits cfg32 - 0x8000).
Proof.
  apply (zImage_get_load_address_zero cfg32 zero_header 0xFFFF8000).
  - unfold zero_header. rewrite repeat_length. vm_compute. lia.
  - cbn. lia.
Defined.

(** ** The sniffing phase as a whole *)

(** Every run of the sniffing phase. *)
Lemma get_guest_image_type_total (cfg : config) (env : environment)
  (name : string) (s : state) :
  exists e ot hdr s1 ev,
    get_guest_image_type cfg env name zero_header s = (Ret (e, ot, hdr), s1, ev)
    /\ open_fds s1 = open_fds s
    /\ List.length hdr = 64%nat
    /\ ((e = 0 /\ ot = Some (sniffed hdr)) \/ (e = -1 /\ ot = None)).
Proof.
  destruct (fs_lookup env name) as [content|] eqn:Hfs.
  2:{ rewrite get_guest_image_type_missing by exact Hfs.
      do 5 eexists. split; [reflexivity|]. repeat split. right. split; reflexivity. }
  rewrite (get_guest_image_type_run cfg env name s content Hfs).
  unfold sizeof_Elf64_Ehdr.
  set (avail := Z.max 0 (Z.min 64 (Z.of_nat (List.length content) - 0))).
  set (n := match read_fault env (nreads s) with
            | Some k => Z.min k avail
            | None => avail
            end).
  assert (Hn : n <= avail) by (subst n; destruct (read_fault env (nreads s)); lia).
  assert (Hlen : List.length (memstore zero_header (firstn (Z.to_nat n) content)) = 64%nat).
  { rewrite memstore_zero_header, length_app, repeat_length, length_firstn. lia. }
  destruct (n <? 0).
  { do 5 eexists. split; [reflexivity|]. repeat split. right. split; reflexivity. }
  destruct (n =? 64).
  - rewrite image_get_type_sniffed by (rewrite Hlen; lia).
    do 5 eexists. split; [reflexivity|]. split; [reflexivity|]. split; [exact Hlen|].
    left. split; reflexivity.
  - do 5 eexists. split; [reflexivity|]. split; [reflexivity|]. split; [exact Hlen|].
    right. split; reflexivity.
Qed.

(** X3. [get_guest_image_type], started on the zeroed header, always
    returns: with the descriptor table as it found it, with the buffer
    still 64 bytes long, and either 0 with the image type sniffed in the
    buffer stored, or -1 with no image type stored. It never reads outside
    the buffer, whatever the length of the artifact and however many bytes
    the read delivers. *)
Theorem get_guest_image_type_returns (cfg : config) (env : environment)
  (name : string) (s : state) :
  exists e ot hdr s1 ev,
    get_guest_image_type cfg env name zero_header s = (Ret (e, ot, hdr), s1, ev)
    /\ open_fds s1 = open_fds s
    /\ List.length hdr = 64%nat
    /\ ((e = 0 /\ ot = Some (sniffed hdr)) \/ (e = -1 /\ ot = None)).
Proof. exact (get_guest_image_type_total cfg env name s). Qed.

(** ** An artifact the file server does not have *)

Lemma load_image_missing (cfg : config) (env : environment) (vm : vm_t)
  (name : string) (addr : Z) (s : state) :
  fs_lookup env name = None ->
  load_image cfg env vm name addr s
  = (Ret (-1, None), s, [EvOpen name (-1); EvLog LOG_unable_to_find_image]).
Proof.
  intros Hfs. unfold load_image.
  erewrite bind_Ret by (unfold sys_open; rewrite Hfs; reflexivity).
  reflexivity.
Qed.

(** X4. For an artifact that cannot be opened both entry points return -1
    after the failed open and its message alone: the descriptor of the
    image and the descriptor table are as before, and nothing is asked of
    the memory manager. *)
Theorem missing_artifact_fails (cfg : config) (env : environment) (vm : vm_t)
  (name : string) (base align : Z) (s : state) :
  fs_lookup env name = None ->
  (forall gki,
      vm_load_guest_kernel cfg env vm name base align (Some gki) s
      = (Ret (-1, Some gki), s, [EvOpen name (-1); EvLog LOG_unable_to_open_image]))
  /\ (forall img,
      vm_load_guest_module cfg env vm name base align (Some img) s
      = (Ret (-1, Some img), s, [EvOpen name (-1); EvLog LOG_unable_to_open_image])).
Proof.
  intros Hfs.
  pose proof (get_guest_image_type_missing cfg env name zero_header s Hfs) as Hg.
  split.
  - intros gki.
    apply (vm_load_guest_kernel_zero cfg env vm name base align gki s s None).
    unfold load_guest_kernel_image. erewrite bind_Ret by exact Hg. reflexivity.
  - intros img.
    apply (vm_load_guest_module_zero cfg env vm name base align img s s None).
    unfold load_guest_module_image. erewrite bind_Ret by exact Hg. reflexivity.
Qed.

Lemma missing_artifact_fails_witness :
  vm_load_guest_kernel cfg64 (quiet_env (one_file "kernel" raw_100)) (vm_at 0x40000000)
    "initrd" 0x40000000 0 (Some blank_kernel_image) no_fds
  = (Ret (-1, Some blank_kernel_image), no_fds,
     [EvOpen "initrd" (-1); EvLog LOG_unable_to_open_image]).
Proof.
  apply (proj1 (missing_artifact_fails cfg64 (quiet_env (one_file "kernel" raw_100))
                  (vm_at 0x40000000) "initrd" 0x40000000 0 no_fds eq_refl)).
Defined.

(** ** The bytes a load writes *)

Lemma guest_writes_app (a b : list event) :
  guest_writes (a ++ b) = guest_writes a ++ guest_writes b.
Proof. unfold guest_writes. apply flat_map_app. Qed.

Lemma marked_ranges_app (a b : list event) :
  marked_ranges (a ++ b) = marked_ranges a ++ marked_ranges b.
Proof. unfold marked_ranges. apply flat_map_app. Qed.

(** The chunks ask nothing of the allocator. *)
Lemma guest_write_address_no_marks (cfg : config) (env : environment) (vm : vm_t)
  (paddr vaddr sz offset fd : Z) (s : state) :
  marked_ranges (events_of (guest_write_address cfg env vm paddr vaddr sz offset fd s)) = [].
Proof.
  unfold guest_write_address, bind, sys_read.
  destruct (fd_lookup fd (open_fds s)) as [[name pos]|];
    [destruct (fs_lookup env name) as [content|];
     [match goal with |- context [if ?c then _ else _] => destruct c end|]|];
    unfold emit at 1; cbn beta iota;
    match goal with |- context [negb (?a =? ?b)] => destruct (a =? b) end; cbn [negb];
    try reflexivity;
    (destruct (clean_cache vm); [|reflexivity]);
    (destruct (vspace_cap env vaddr =? seL4_CapNull); [reflexivity|]);
    unfold emit, fatal, ret;
    destruct (clean_invalidate_err env (vspace_cap env vaddr) =? 0); reflexivity.
Qed.

Lemma touch_from_no_marks (cfg : config) (env : environment) (vm : vm_t)
  (fd addr end_addr : Z) (fuel : nat) :
  forall (current_addr : Z) (s : state),
    marked_ranges (events_of (touch_from env fuel vm (guest_write_address cfg env) fd addr
                                current_addr end_addr s)) = [].
Proof.
  induction fuel as [|fuel IH]; intros cur s; cbn [touch_from];
    destruct (cur <? end_addr); try reflexivity.
  unfold bind.
  pose proof (guest_write_address_no_marks cfg env vm cur (vmm_vaddr env cur)
                (Z.min end_addr (cur - cur mod PAGE_SIZE_4K + PAGE_SIZE_4K) - cur)
                (cur - addr) fd s) as Hg.
  destruct (guest_write_address cfg env vm cur (vmm_vaddr env cur) _ (cur - addr) fd s)
    as [[[r| |] s1] ev]; cbn [events_of snd] in *; try exact Hg.
  destruct (negb (r =? 0)).
  - cbn. rewrite app_nil_r. exact Hg.
  - specialize (IH (Z.min end_addr (cur - cur mod PAGE_SIZE_4K + PAGE_SIZE_4K)) s1).
    destruct (touch_from env fuel vm (guest_write_address cfg env) fd addr _ end_addr s1)
      as [[r2 s2] ev2]. cbn [events_of snd] in *.
    rewrite marked_ranges_app, Hg, IH. reflexivity.
Qed.

Lemma firstn_firstn_skipn {A} (a b : nat) (l : list A) :
  firstn a l ++ firstn b (skipn a l) = firstn (a + b) l.
Proof.
  revert l. induction a as [|a IH]; intros l; [reflexivity|].
  destruct l as [|x l]; cbn [firstn skipn Nat.add app].
  - rewrite firstn_nil. reflexivity.
  - rewrite IH. reflexivity.
Qed.

Lemma skipn_skipn_add {A} (a b : nat) (l : list A) :
  skipn b (skipn a l) = skipn (a + b) l.
Proof.
  revert l. induction a as [|a IH]; intros l; [reflexivity|].
  destruct l as [|x l]; cbn [skipn Nat.add].
  - apply skipn_nil.
  - apply IH.
Qed.

Section ChunkStates.
Variable cfg : config.
Variable env : environment.
Variable name : string.
Variable content : list byte.
Variable fd : Z.
Variable fds0 : list (Z * (string * Z)).
Hypothesis Hfs : fs_lookup env name = Some content.

(** A [read] on the descriptor of the artifact at position [pos]. *)
Lemma sys_read_at (sz pos : Z) (s : state) :
  open_fds s = (fd, (name, pos)) :: fds0 -> 0 <= sz -> 0 <= pos ->
  exists n data s',
    sys_read env fd sz s = (Ret (n, data), s', [EvRead fd sz n])
    /\ -1 <= n <= sz
    /\ ((n = -1 /\ open_fds s' = (fd, (name, pos)) :: fds0)
        \/ (0 <= n
            /\ data = firstn (Z.to_nat n) (skipn (Z.to_nat pos) content)
            /\ Z.of_nat (List.length data) = n
            /\ open_fds s' = (fd, (name, pos + n)) :: fds0)).
Proof.
  intros Hs Hsz Hpos. unfold sys_read. rewrite Hs.
  cbn [fd_lookup]. rewrite Z.eqb_refl, Hfs.
  set (avail := Z.max 0 (Z.min sz (Z.of_nat (List.length content) - pos))).
  set (n := match read_fault env (nreads s) with
            | Some k => Z.min k avail
            | None => avail
            end).
  assert (Hn : n <= avail) by (subst n; destruct (read_fault env (nreads s)); lia).
  destruct (Z.ltb_spec n 0) as [Hneg | Hnn].
  - do 3 eexists. split; [reflexivity|]. split; [lia|]. left. split; reflexivity.
  - do 3 eexists. split; [reflexivity|]. split; [lia|]. right.
    split; [exact Hnn|]. split; [reflexivity|]. split.
    + rewrite length_firstn, length_skipn. subst avail. lia.
    + cbn [open_fds fd_update]. rewrite Z.eqb_refl. reflexivity.
Qed.

(** One chunk: the descriptor stays in the table, and a chunk that
    succeeds has put the next [sz] bytes of the artifact at [paddr]. *)
Lemma guest_write_address_at (vm : vm_t) (paddr vaddr sz offset pos : Z) (s : state) :
  open_fds s = (fd, (name, pos)) :: fds0 -> 0 <= sz <= 4096 -> 0 <= pos ->
  exists pos',
    open_fds (state_of (guest_write_address cfg env vm paddr vaddr sz offset fd s))
    = (fd, (name, pos')) :: fds0
    /\ (result_of (guest_write_address cfg env vm paddr vaddr sz offset fd s) = Ret 0 ->
        pos' = pos + sz
        /\ exists data,
            guest_writes (events_of (guest_write_address cfg env vm paddr vaddr sz offset fd s))
            = [(paddr, data)]
            /\ data = firstn (Z.to_nat sz) (skipn (Z.to_nat pos) content)
            /\ Z.of_nat (List.length data) = sz).
Proof.
  intros Hs Hsz Hpos.
  destruct (sys_read_at sz pos s Hs ltac:(lia) Hpos) as (n & data & s' & Hrd & Hn & Hcase).
  unfold guest_write_address, bind. rewrite Hrd.
  unfold emit at 1. cbn beta iota.
  rewrite (wrap_count cfg n sz) by lia.
  assert (Htab : exists pos', open_fds s' = (fd, (name, pos')) :: fds0)
    by (destruct Hcase as [[_ H] | (_ & _ & _ & H)]; eauto).
  destruct Htab as (pos' & Htab).
  destruct (Z.eqb_spec n sz) as [-> | Hne]; cbn [negb].
  2:{ exists pos'. split; [exact Htab|]. cbn. intros H. discriminate H. }
  destruct Hcase as [[Hm1 _] | (Hn0 & Hdata & Hlen & Hnew)]; [lia|].
  exists (pos + sz). 
  assert (Hok : forall tl, guest_writes (EvRead fd sz sz :: EvGuestWrite paddr data :: tl)
                           = (paddr, data) :: guest_writes tl) by reflexivity.
  destruct (clean_cache vm).
  - destruct (vspace_cap env vaddr =? seL4_CapNull).
    + split; [exact Hnew|]. cbn. intros H. discriminate H.
    + unfold emit, fatal, ret.
      destruct (clean_invalidate_err env (vspace_cap env vaddr) =? 0); cbn [negb].
      * split; [exact Hnew|]. intros _. split; [reflexivity|].
        exists data. split; [reflexivity | split; assumption].
      * split; [exact Hnew|]. cbn. intros H. discriminate H.
  - split; [exact Hnew|]. intros _. split; [reflexivity|].
    exists data. split; [reflexivity | split; assumption].
Qed.

(** The loop: the descriptor stays in the table, and a loop that succeeds
    has written the bytes of the artifact from the file position on to the
    addresses from [current_addr] up to [end_addr], in order. *)
Lemma touch_from_at (vm : vm_t) (addr end_addr : Z) (fuel : nat) :
  forall (current_addr pos : Z) (s : state),
    open_fds s = (fd, (name, pos)) :: fds0 -> 0 <= pos ->
    (exists pos',
        open_fds (state_of (touch_from env fuel vm (guest_write_address cfg env) fd addr
                              current_addr end_addr s))
        = (fd, (name, pos')) :: fds0)
    /\ (result_of (touch_from env fuel vm (guest_write_address cfg env) fd addr
                     current_addr end_addr s) = Ret 0 ->
        contiguous_from current_addr
          (guest_writes (events_of (touch_from env fuel vm (guest_write_address cfg env)
                                      fd addr current_addr end_addr s))) = true
        /\ written_bytes
             (guest_writes (events_of (touch_from env fuel vm (guest_write_address cfg env)
                                         fd addr current_addr end_addr s)))
           = firstn (Z.to_nat (end_addr - current_addr)) (skipn (Z.to_nat pos) content)).
Proof.
  induction fuel as [|fuel IH]; intros cur pos s Hs Hpos.
  - cbn [touch_from]. destruct (Z.ltb_spec cur end_addr) as [Hlt | Hge].
    + split; [eauto|]. cbn. intros H. discriminate H.
    + split; [eauto|]. intros _. cbn.
      replace (Z.to_nat (end_addr - cur)) with 0%nat by lia. split; reflexivity.
  - cbn [touch_from]. destruct (Z.ltb_spec cur end_addr) as [Hlt | Hge].
    2:{ split; [eauto|]. intros _. cbn.
        replace (Z.to_nat (end_addr - cur)) with 0%nat by lia. split; reflexivity. }
    unfold PAGE_SIZE_4K.
    set (next := Z.min end_addr (cur - cur mod 4096 + 4096)).
    pose proof (Z.mod_pos_bound cur 4096 ltac:(lia)) as Hmod.
    assert (Hsz : 0 <= next - cur <= 4096) by (subst next; lia).
    assert (Hnext : next <= end_addr) by (subst next; lia).
    destruct (guest_write_address_at vm cur (vmm_vaddr env cur) (next - cur)
                (cur - addr) pos s Hs Hsz Hpos) as (pos' & Htab & Hok).
    unfold bind.
    destruct (guest_write_address cfg env vm cur (vmm_vaddr env cur) (next - cur)
                (cur - addr) fd s) as [[[r| |] s1] ev];
      cbn [result_of state_of events_of fst snd] in *.
    + destruct (Z.eqb_spec r 0) as [-> | Hr]; cbn [negb].
      * destruct (Hok eq_refl) as (-> & data & Hw & Hdata & Hlen).
        destruct (IH next (pos + (next - cur)) s1 Htab ltac:(lia)) as [Htab2 Hok2].
        destruct (touch_from env fuel vm (guest_write_address cfg env) fd addr next
                    end_addr s1) as [[r2 s2] ev2];
          cbn [result_of state_of events_of fst snd] in *.
        split; [exact Htab2|]. intros Hr2.
        destruct (Hok2 Hr2) as [Hc Hb].
        rewrite guest_writes_app, Hw. cbn [app contiguous_from].
        rewrite Z.eqb_refl, Hlen.
        replace (cur + (next - cur)) with next by lia.
        split; [exact Hc|].
        unfold written_bytes in *. cbn [map snd List.concat]. rewrite Hb, Hdata.
        replace (Z.to_nat (pos + (next - cur)))
          with (Z.to_nat pos + Z.to_nat (next - cur))%nat by lia.
        rewrite <- (skipn_skipn_add (Z.to_nat pos) (Z.to_nat (next - cur))).
        rewrite firstn_firstn_skipn. f_equal. lia.
      * split; [eauto|]. cbn. intros H. injection H as H. contradiction.
    + split; [eauto|]. intros H. discriminate H.
    + split; [eauto|]. intros H. discriminate H.
Qed.
End ChunkStates.

Section LoadStates.
Variable cfg : config.
Variable env : environment.

Lemma wrap_range (z : Z) : 0 <= wrap cfg z < 2 ^ word_bits cfg.
Proof.
  unfold wrap. apply Z.mod_pos_bound.
  destruct (word_bits_cases cfg) as [E | E]; rewrite E; reflexivity.
Qed.

(** How [load_image] can end: -1 with no size stored, 0 with the size
    stored, or the process stopped in the cache maintenance of a page. *)
Lemma load_image_outcomes (vm : vm_t) (name : string) (addr : Z) (s : state) :
  match result_of (load_image cfg env vm name addr s) with
  | Ret (e, o) =>
      (e = -1 /\ o = None)
      \/ (e = 0 /\ exists content,
             fs_lookup env name = Some content
             /\ o = Some (wrap cfg (Z.of_nat (List.length content)))
             /\ wrap cfg (Z.of_nat (List.length content)) <> 0)
  | Abort =>
      clean_cache vm = true
      /\ exists v, clean_invalidate_err env (vspace_cap env v) <> 0
  | Undef => False
  end.
Proof.
  destruct (fs_lookup env name) as [content|] eqn:Hfs.
  2:{ rewrite load_image_missing by exact Hfs. left. split; reflexivity. }
  rewrite (load_image_run cfg env vm name addr s content Hfs).
  set (L := wrap cfg (Z.of_nat (List.length content))).
  destruct (Z.eqb_spec 0 L) as [|HL]; [left; split; reflexivity|].
  destruct (cfg_defer_memory_map cfg && negb (map_deferred_err env addr L =? 0));
    [left; split; reflexivity|].
  pose proof (vm_ram_touch_post cfg env vm addr L (fresh_fd (open_fds s))
                {| open_fds := (fresh_fd (open_fds s), (name, 0)) :: open_fds s;
                   nreads := nreads s |}
                (proj1 (wrap_range _))) as Hpost.
  destruct Hpost as [[Hr _] | [(pre' & p & sz & len & data & Hr & _) | (Hcc & _ & [[Hr _] | [Hr Hv]])]];
    rewrite Hr; cbn [Z.eqb negb result_of fst].
  - right. split; [reflexivity|]. exists content. repeat split. lia.
  - left. split; reflexivity.
  - left. split; reflexivity.
  - split; assumption.
Qed.

(** The exits of [load_image] behind the allocation request and the
    deferred mapping leave the descriptor table as they found it. *)
Lemma load_image_table (vm : vm_t) (name : string) (addr : Z) (s : state)
  (content : list byte) :
  fs_lookup env name = Some content ->
  wrap cfg (Z.of_nat (List.length content)) <> 0 ->
  (cfg_defer_memory_map cfg = true ->
   map_deferred_err env addr (wrap cfg (Z.of_nat (List.length content))) = 0) ->
  match result_of (load_image cfg env vm name addr s) with
  | Ret _ => open_fds (state_of (load_image cfg env vm name addr s)) = open_fds s
  | _ => True
  end.
Proof.
  intros Hfs HL Hdef.
  rewrite (load_image_run cfg env vm name addr s content Hfs).
  set (L := wrap cfg (Z.of_nat (List.length content))) in *.
  destruct (Z.eqb_spec 0 L) as [|_]; [congruence|].
  destruct (cfg_defer_memory_map cfg) eqn:Hd; cbn [andb].
  - rewrite (Hdef eq_refl). cbn [Z.eqb negb].
    destruct (touch_from_at cfg env name content (fresh_fd (open_fds s)) (open_fds s) Hfs
                vm addr (addr + L) (Z.to_nat (L / PAGE_SIZE_4K) + 2) addr 0
                {| open_fds := (fresh_fd (open_fds s), (name, 0)) :: open_fds s;
                   nreads := nreads s |} eq_refl ltac:(lia)) as [(pos' & Htab) _].
    fold (vm_ram_touch env vm addr L (guest_write_address cfg env) (fresh_fd (open_fds s))
            {| open_fds := (fresh_fd (open_fds s), (name, 0)) :: open_fds s;
               nreads := nreads s |}) in Htab.
    destruct (vm_ram_touch env vm addr L (guest_write_address cfg env) (fresh_fd (open_fds s)) _)
      as [[[e| |] st] ev]; cbn [result_of state_of events_of fst snd] in *; try exact I.
    destruct (negb (e =? 0)); cbn [result_of state_of fst snd closed_fd open_fds];
      rewrite Htab; cbn [fd_remove]; rewrite Z.eqb_refl; apply fd_remove_fresh.
  - destruct (touch_from_at cfg env name content (fresh_fd (open_fds s)) (open_fds s) Hfs
                vm addr (addr + L) (Z.to_nat (L / PAGE_SIZE_4K) + 2) addr 0
                {| open_fds := (fresh_fd (open_fds s), (name, 0)) :: open_fds s;
                   nreads := nreads s |} eq_refl ltac:(lia)) as [(pos' & Htab) _].
    fold (vm_ram_touch env vm addr L (guest_write_address cfg env) (fresh_fd (open_fds s))
            {| open_fds := (fresh_fd (open_fds s), (name, 0)) :: open_fds s;
               nreads := nreads s |}) in Htab.
    destruct (vm_ram_touch env vm addr L (guest_write_address cfg env) (fresh_fd (open_fds s)) _)
      as [[[e| |] st] ev]; cbn [result_of state_of events_of fst snd] in *; try exact I.
    destruct (negb (e =? 0)); cbn [result_of state_of fst snd closed_fd open_fds];
      rewrite Htab; cbn [fd_remove]; rewrite Z.eqb_refl; apply fd_remove_fresh.
Qed.
End LoadStates.

(** The events of a load that succeeds. *)
Lemma load_image_success_events (cfg : config) (env : environment) (vm : vm_t)
  (name : string) (addr : Z) (s : state) (content : list byte) (out : option Z) :
  fs_lookup env name = Some content ->
  Z.of_nat (List.length content) < 2 ^ word_bits cfg ->
  result_of (load_image cfg env vm name addr s) = Ret (0, out) ->
  contiguous_from addr (guest_writes (events_of (load_image cfg env vm name addr s))) = true
  /\ written_bytes (guest_writes (events_of (load_image cfg env vm name addr s))) = content
  /\ marked_ranges (events_of (load_image cfg env vm name addr s))
     = [(addr, ROUND_UP cfg (Z.of_nat (List.length content)) PAGE_SIZE_4K)].
Proof.
  intros Hfs HL.
  rewrite (load_image_run cfg env vm name addr s content Hfs).
  rewrite (wrap_small cfg (Z.of_nat (List.length content))) by lia.
  set (L := Z.of_nat (List.length content)) in *.
  set (fd := fresh_fd (open_fds s)).
  set (s1 := {| open_fds := (fd, (name, 0)) :: open_fds s; nreads := nreads s |}).
  destruct (0 =? L); [intros H; discriminate H|].
  destruct (cfg_defer_memory_map cfg && negb (map_deferred_err env addr L =? 0));
    [intros H; discriminate H|].
  destruct (touch_from_at cfg env name content fd (open_fds s) Hfs
              vm addr (addr + L) (Z.to_nat (L / PAGE_SIZE_4K) + 2) addr 0 s1
              eq_refl ltac:(lia)) as [_ Hok].
  fold (vm_ram_touch env vm addr L (guest_write_address cfg env) fd s1) in Hok.
  pose proof (touch_from_no_marks cfg env vm fd addr (addr + L)
                (Z.to_nat (L / PAGE_SIZE_4K) + 2) addr s1) as Hnm.
  fold (vm_ram_touch env vm addr L (guest_write_address cfg env) fd s1) in Hnm.
  assert (Hmarks : forall ev, marked_ranges ev = [] -> forall tl, marked_ranges tl = [] ->
            marked_ranges
              ([EvOpen name fd;
                EvMarkAllocated addr (ROUND_UP cfg L PAGE_SIZE_4K)
                  (mark_allocated_ok env addr (ROUND_UP cfg L PAGE_SIZE_4K))]
               ++ (if cfg_defer_memory_map cfg
                   then [EvMapDeferred addr L (map_deferred_err env addr L)] else [])
               ++ ev ++ tl)
            = [(addr, ROUND_UP cfg L PAGE_SIZE_4K)]).
  { intros ev Hev tl Htl. unfold marked_ranges in *.
    rewrite !flat_map_app, Hev, Htl.
    destruct (cfg_defer_memory_map cfg); reflexivity. }
  assert (Hwrites : forall ev tl, guest_writes tl = [] ->
            guest_writes
              ([EvOpen name fd;
                EvMarkAllocated addr (ROUND_UP cfg L PAGE_SIZE_4K)
                  (mark_allocated_ok env addr (ROUND_UP cfg L PAGE_SIZE_4K))]
               ++ (if cfg_defer_memory_map cfg
                   then [EvMapDeferred addr L (map_deferred_err env addr L)] else [])
               ++ ev ++ tl)
            = guest_writes ev).
  { intros ev tl Htl. rewrite !guest_writes_app, Htl, app_nil_r.
    destruct (cfg_defer_memory_map cfg); reflexivity. }
  destruct (vm_ram_touch env vm addr L (guest_write_address cfg env) fd s1)
    as [[[e| |] st] ev]; cbn [result_of state_of events_of fst snd] in *;
    try (intros H; discriminate H).
  destruct (Z.eqb_spec e 0) as [-> | He]; cbn [negb]; [|intros H; discriminate H].
  intros _. destruct (Hok eq_refl) as [Hc Hb]. cbn [events_of snd].
  rewrite Hwrites by reflexivity.
  split; [exact Hc|]. split.
  - rewrite Hb. cbn [Z.to_nat skipn].
    replace (Z.to_nat (addr + L - addr)) with (List.length content) by lia.
    apply firstn_all.
  - apply Hmarks; [exact Hnm | reflexivity].
Qed.

(** X5. A load that succeeds has written the artifact, all of its bytes
    and nothing else, to the addresses from the load address on, chunk
    after chunk without gap or overlap. *)
Theorem load_image_writes_artifact (cfg : config) (env : environment) (vm : vm_t)
  (name : string) (addr : Z) (s : state) (content : list byte) (out : option Z) :
  fs_lookup env name = Some content ->
  Z.of_nat (List.length content) < 2 ^ word_bits cfg ->
  result_of (load_image cfg env vm name addr s) = Ret (0, out) ->
  contiguous_from addr (guest_writes (events_of (load_image cfg env vm name addr s))) = true
  /\ written_bytes (guest_writes (events_of (load_image cfg env vm name addr s))) = content.
Proof.
  intros Hfs HL Hr.
  destruct (load_image_success_events cfg env vm name addr s content out Hfs HL Hr)
    as (Hc & Hb & _).
  split; assumption.
Qed.

Lemma load_image_writes_artifact_witness :
  written_bytes
    (guest_writes (events_of (load_image cfg64 (quiet_env (one_file "kernel" raw_100))
                                (vm_at 0x40000000) "kernel" 0x40000800 after_header)))
  = raw_100.
Proof.
  apply (proj2 (load_image_writes_artifact cfg64 (quiet_env (one_file "kernel" raw_100))
                  (vm_at 0x40000000) "kernel" 0x40000800 after_header raw_100 (Some 100)
                  eq_refl eq_refl eq_refl)).
Defined.

Lemma contiguous_from_bounds (ws : list (Z * list byte)) :
  forall (a p : Z) (d : list byte),
    contiguous_from a ws = true -> In (p, d) ws ->
    a <= p /\ p + Z.of_nat (List.length d) <= a + Z.of_nat (List.length (written_bytes ws)).
Proof.
  induction ws as [|[q e] ws IH]; intros a p d Hc Hin; [destruct Hin|].
  cbn [contiguous_from] in Hc. apply andb_true_iff in Hc. destruct Hc as [Hq Hc].
  apply Z.eqb_eq in Hq. subst q.
  unfold written_bytes in *. cbn [map snd List.concat]. rewrite length_app.
  destruct Hin as [Heq | Hin].
  - injection Heq as -> ->. lia.
  - specialize (IH _ p d Hc Hin). lia.
Qed.

(** X6. In a load that succeeds exactly one range is marked allocated,
    the pages from the load address that the artifact needs, and, unless
    rounding the length up to a page overflows the machine word, every
    byte written lies inside that range. *)
Theorem load_image_writes_in_marked_range (cfg : config) (env : environment) (vm : vm_t)
  (name : string) (addr : Z) (s : state) (content : list byte) (out : option Z) :
  fs_lookup env name = Some content ->
  Z.of_nat (List.length content) + 4095 < 2 ^ word_bits cfg ->
  result_of (load_image cfg env vm name addr s) = Ret (0, out) ->
  marked_ranges (events_of (load_image cfg env vm name addr s))
  = [(addr, ROUND_UP cfg (Z.of_nat (List.length content)) PAGE_SIZE_4K)]
  /\ forall p d,
      In (p, d) (guest_writes (events_of (load_image cfg env vm name addr s))) ->
      addr <= p
      /\ p + Z.of_nat (List.length d)
         <= addr + ROUND_UP cfg (Z.of_nat (List.length content)) PAGE_SIZE_4K.
Proof.
  intros Hfs HL Hr.
  destruct (load_image_success_events cfg env vm name addr s content out Hfs
              ltac:(lia) Hr) as (Hc & Hb & Hm).
  split; [exact Hm|]. intros p d Hin.
  pose proof (contiguous_from_bounds _ addr p d Hc Hin) as Hbd. rewrite Hb in Hbd.
  pose proof (ROUND_UP_page cfg (Z.of_nat (List.length content)) ltac:(lia) HL). lia.
Qed.

Lemma load_image_writes_in_marked_range_witness :
  marked_ranges (events_of (load_image cfg64 (quiet_env (one_file "kernel" raw_100))
                              (vm_at 0x40000000) "kernel" 0x40000800 after_header))
  = [(0x40000800, ROUND_UP cfg64 (Z.of_nat (List.length raw_100)) PAGE_SIZE_4K)].
Proof.
  apply (proj1 (load_image_writes_in_marked_range cfg64
                  (quiet_env (one_file "kernel" raw_100))
                  (vm_at 0x40000000) "kernel" 0x40000800 after_header raw_100 (Some 100)
                  eq_refl eq_refl eq_refl)).
Defined.

(** ** The entry points as a whole *)

Section EntryRuns.
Variable cfg : config.
Variable env : environment.
Variable vm : vm_t.
Variable name : string.

Lemma vm_load_guest_kernel_load (base align a : Z) (gki : guest_kernel_image_t)
  (s s1 : state) (ev1 : list event) :
  load_guest_kernel_image cfg env vm name base s
  = after ev1 (load_at cfg env vm name a s1) ->
  vm_load_guest_kernel cfg env vm name base align (Some gki) s
  = entry_result gki (kernel_store gki) a (after ev1 (load_image cfg env vm name a s1)).
Proof.
  intros H. unfold vm_load_guest_kernel, bind. rewrite H.
  unfold load_at, bind, after, entry_result.
  destruct (load_image cfg env vm name a s1) as [[[[err o]| |] s2] ev2];
    cbn [result_of state_of events_of fst snd]; try reflexivity.
  destruct (err =? 0); cbn [negb result_of state_of events_of fst snd ret app].
  - destruct (0 =? a); cbn [ret app]; rewrite ?app_nil_r; [reflexivity|].
    destruct o; cbn [defined ret app]; rewrite ?app_nil_r; reflexivity.
  - cbn. rewrite !app_nil_r. reflexivity.
Qed.

Lemma vm_load_guest_module_load (base align a : Z) (img : guest_image_t)
  (s s1 : state) (ev1 : list event) :
  load_guest_module_image cfg env vm name base s
  = after ev1 (load_at cfg env vm name a s1) ->
  vm_load_guest_module cfg env vm name base align (Some img) s
  = entry_result img (module_store img) a (after ev1 (load_image cfg env vm name a s1)).
Proof.
  intros H. unfold vm_load_guest_module, bind. rewrite H.
  unfold load_at, bind, after, entry_result.
  destruct (load_image cfg env vm name a s1) as [[[[err o]| |] s2] ev2];
    cbn [result_of state_of events_of fst snd]; try reflexivity.
  destruct (err =? 0); cbn [negb result_of state_of events_of fst snd ret app].
  - destruct (0 =? a); cbn [ret app]; rewrite ?app_nil_r; [reflexivity|].
    destruct o; cbn [defined ret app]; rewrite ?app_nil_r; reflexivity.
  - cbn. rewrite !app_nil_r. reflexivity.
Qed.

(** The kernel entry point, phase by phase. *)
Lemma vm_load_guest_kernel_run (base align : Z) (gki : guest_kernel_image_t) (s : state) :
  exists e ot hdr s1 ev1,
    get_guest_image_type cfg env name zero_header s = (Ret (e, ot, hdr), s1, ev1)
    /\ open_fds s1 = open_fds s
    /\ ((e = -1
         /\ vm_load_guest_kernel cfg env vm name base align (Some gki) s
            = (Ret (-1, Some gki), s1, ev1))
        \/ (e = 0 /\ ot = Some (sniffed hdr)
            /\ match sniffed hdr with
               | IMG_BIN =>
                   vm_load_guest_kernel cfg env vm name base align (Some gki) s
                   = entry_result gki (kernel_store gki) (entry vm)
                       (after ev1 (load_image cfg env vm name (entry vm) s1))
               | IMG_ZIMAGE =>
                   exists a,
                     zImage_get_load_address cfg hdr base = Some a
                     /\ vm_load_guest_kernel cfg env vm name base align (Some gki) s
                        = entry_result gki (kernel_store gki) a
                            (after ev1 (load_image cfg env vm name a s1))
               | _ =>
                   vm_load_guest_kernel cfg env vm name base align (Some gki) s
                   = (Ret (-1, Some gki), s1, ev1 ++ [EvLog LOG_unknown_kernel_format])
               end)).
Proof.
  destruct (get_guest_image_type_total cfg env name s)
    as (e & ot & hdr & s1 & ev1 & Hg & Htab & Hlen & [[-> ->] | [-> ->]]).
  - exists 0, (Some (sniffed hdr)), hdr, s1, ev1.
    split; [exact Hg|]. split; [exact Htab|]. right.
    split; [reflexivity|]. split; [reflexivity|].
    pose proof (load_guest_kernel_image_after cfg env vm name base s s1 _ hdr ev1 Hg) as Hk.
    destruct (sniffed hdr);
      try (apply (vm_load_guest_kernel_zero cfg env vm name base align gki s s1 None);
           rewrite Hk; reflexivity).
    + apply vm_load_guest_kernel_load. exact Hk.
    + destruct (zImage_get_load_address_defined cfg env name base s s1 _ hdr ev1 Hg)
        as (a & Ha).
      exists a. split; [exact Ha|].
      apply vm_load_guest_kernel_load. rewrite Hk.
      erewrite bind_Ret by (unfold defined; rewrite Ha; reflexivity).
      rewrite after_nil. reflexivity.
  - exists (-1), None, hdr, s1, ev1.
    split; [exact Hg|]. split; [exact Htab|]. left. split; [reflexivity|].
    apply (vm_load_guest_kernel_zero cfg env vm name base align gki s s1 None).
    unfold load_guest_kernel_image. erewrite bind_Ret by exact Hg.
    unfold after. cbn. rewrite app_nil_r. reflexivity.
Qed.

(** The module entry point, phase by phase. *)
Lemma vm_load_guest_module_run (base align : Z) (img : guest_image_t) (s : state) :
  exists e ot hdr s1 ev1,
    get_guest_image_type cfg env name zero_header s = (Ret (e, ot, hdr), s1, ev1)
    /\ open_fds s1 = open_fds s
    /\ ((e = -1
         /\ vm_load_guest_module cfg env vm name base align (Some img) s
            = (Ret (-1, Some img), s1, ev1))
        \/ (e = 0 /\ ot = Some (sniffed hdr)
            /\ match sniffed hdr with
               | IMG_DTB | IMG_INITRD_GZ =>
                   vm_load_guest_module cfg env vm name base align (Some img) s
                   = entry_result img (module_store img) base
                       (after ev1 (load_image cfg env vm name base s1))
               | _ =>
                   vm_load_guest_module cfg env vm name base align (Some img) s
                   = (Ret (-1, Some img), s1, ev1 ++ [EvLog LOG_unknown_module_format])
               end)).
Proof.
  destruct (get_guest_image_type_total cfg env name s)
    as (e & ot & hdr & s1 & ev1 & Hg & Htab & Hlen & [[-> ->] | [-> ->]]).
  - exists 0, (Some (sniffed hdr)), hdr, s1, ev1.
    split; [exact Hg|]. split; [exact Htab|]. right.
    split; [reflexivity|]. split; [reflexivity|].
    pose proof (load_guest_module_image_after cfg env vm name base s s1 _ hdr ev1 Hg) as Hm.
    destruct (sniffed hdr);
      try (apply (vm_load_guest_module_zero cfg env vm name base align img s s1 None);
           rewrite Hm; reflexivity);
      apply vm_load_guest_module_load; exact Hm.
  - exists (-1), None, hdr, s1, ev1.
    split; [exact Hg|]. split; [exact Htab|]. left. split; [reflexivity|].
    apply (vm_load_guest_module_zero cfg env vm name base align img s s1 None).
    unfold load_guest_module_image. erewrite bind_Ret by exact Hg.
    unfold after. cbn. rewrite app_nil_r. reflexivity.
Qed.

(** What an entry point makes of a load keeps the outcomes of the load
    apart. *)
Lemma entry_result_outcomes {D : Type} (old : D) (store : Z -> Z -> D) (a : Z)
  (ev1 : list event) (s1 : state) :
  match result_of (entry_result old store a
                     (after ev1 (load_image cfg env vm name a s1))) with
  | Ret (rc, out) =>
      (rc = -1 /\ out = Some old)
      \/ (rc = 0 /\ a <> 0
          /\ exists content,
              fs_lookup env name = Some content
              /\ wrap cfg (Z.of_nat (List.length content)) <> 0
              /\ out = Some (store a (wrap cfg (Z.of_nat (List.length content)))))
  | Abort =>
      clean_cache vm = true
      /\ exists v, clean_invalidate_err env (vspace_cap env v) <> 0
  | Undef => False
  end.
Proof.
  pose proof (load_image_outcomes cfg env vm name a s1) as Ho.
  unfold entry_result, after.
  destruct (load_image cfg env vm name a s1) as [[[[err o]| |] s2] ev2];
    cbn [result_of state_of events_of fst snd] in *; try assumption.
  destruct Ho as [[-> ->] | (-> & content & Hfs & -> & HL)].
  - cbn. left. split; reflexivity.
  - change (negb (0 =? 0)) with false. cbv iota.
    destruct (Z.eqb_spec 0 a) as [|Ha]; cbn [result_of fst].
    + left. split; reflexivity.
    + right. split; [reflexivity|]. split; [congruence|].
      exists content. repeat split; assumption.
Qed.
End EntryRuns.

(** X7. Whatever the file server, the memory manager and the kernel do,
    the entry points stay within defined behaviour: no byte outside the
    header buffer is read and no size that was never stored is used. They
    either return, or the process is stopped by a failed cache maintenance,
    which needs a VM that asks for its cache to be cleaned. *)
Theorem entry_points_stay_defined (cfg : config) (env : environment) (vm : vm_t)
  (name : string) (base align : Z) (s : state) :
  (forall gki,
      match result_of (vm_load_guest_kernel cfg env vm name base align gki s) with
      | Ret (rc, _) => rc = 0 \/ rc = -1
      | Abort => clean_cache vm = true
                 /\ exists v, clean_invalidate_err env (vspace_cap env v) <> 0
      | Undef => False
      end)
  /\ (forall img,
      match result_of (vm_load_guest_module cfg env vm name base align img s) with
      | Ret (rc, _) => rc = 0 \/ rc = -1
      | Abort => clean_cache vm = true
                 /\ exists v, clean_invalidate_err env (vspace_cap env v) <> 0
      | Undef => False
      end).
Proof.
  split.
  - intros [gki|]; [|cbn; right; reflexivity].
    destruct (vm_load_guest_kernel_run cfg env vm name base align gki s)
      as (e & ot & hdr & s1 & ev1 & _ & _ & [[_ ->] | (_ & _ & Hrun)]);
      [cbn [result_of fst]; right; reflexivity|].
    destruct (sniffed hdr);
      try (rewrite Hrun; cbn [result_of fst]; right; reflexivity).
    + rewrite Hrun.
      pose proof (entry_result_outcomes cfg env vm name gki (kernel_store gki) (entry vm)
                    ev1 s1) as Ho.
      destruct (result_of (entry_result gki (kernel_store gki) (entry vm) _))
        as [[rc out]| |]; try assumption.
      destruct Ho as [[-> _] | [-> _]]; auto.
    + destruct Hrun as (a & _ & ->).
      pose proof (entry_result_outcomes cfg env vm name gki (kernel_store gki) a ev1 s1)
        as Ho.
      destruct (result_of (entry_result gki (kernel_store gki) a _))
        as [[rc out]| |]; try assumption.
      destruct Ho as [[-> _] | [-> _]]; auto.
  - intros [img|]; [|cbn; right; reflexivity].
    destruct (vm_load_guest_module_run cfg env vm name base align img s)
      as (e & ot & hdr & s1 & ev1 & _ & _ & [[_ ->] | (_ & _ & Hrun)]);
      [cbn [result_of fst]; right; reflexivity|].
    destruct (sniffed hdr);
      try (rewrite Hrun; cbn [result_of fst]; right; reflexivity);
      rewrite Hrun;
      pose proof (entry_result_outcomes cfg env vm name img (module_store img) base ev1 s1)
        as Ho;
      (destruct (result_of (entry_result img (module_store img) base _))
        as [[rc out]| |]; try assumption);
      destruct Ho as [[-> _] | [-> _]]; auto.
Qed.

Lemma entry_result_table {D : Type} (old : D) (store : Z -> Z -> D) (a : Z)
  (ev : list event) (r : outcome (Z * option Z) * state * list event)
  (table : list (Z * (string * Z))) :
  match result_of r with
  | Ret _ => open_fds (state_of r) = table
  | _ => True
  end ->
  match result_of (entry_result old store a (after ev r)) with
  | Ret _ => open_fds (state_of (entry_result old store a (after ev r))) = table
  | _ => True
  end.
Proof.
  unfold entry_result, after.
  destruct r as [[[[err o]| |] s2] ev2]; cbn [result_of state_of events_of fst snd];
    intros H; try exact I.
  destruct (negb (err =? 0)); cbn [result_of state_of fst snd]; [exact H|].
  destruct (0 =? a); cbn [result_of state_of fst snd]; [exact H|].
  destruct o; cbn [result_of state_of fst snd]; [exact H | exact I].
Qed.

(** X8. Where deferred mapping is not configured, or never fails, and the
    length of the artifact fits the machine word, an entry point that
    returns leaves the descriptor table as it found it, whether the load
    succeeded or failed. *)
Theorem entry_points_keep_descriptor_table (cfg : config) (env : environment)
  (vm : vm_t) (name : string) (base align : Z) (s : state) :
  (cfg_defer_memory_map cfg = true -> forall a n, map_deferred_err env a n = 0) ->
  (forall content, fs_lookup env name = Some content ->
                   Z.of_nat (List.length content) < 2 ^ word_bits cfg) ->
  (forall gki,
      match result_of (vm_load_guest_kernel cfg env vm name base align gki s) with
      | Ret _ =>
          open_fds (state_of (vm_load_guest_kernel cfg env vm name base align gki s))
          = open_fds s
      | _ => True
      end)
  /\ (forall img,
      match result_of (vm_load_guest_module cfg env vm name base align img s) with
      | Ret _ =>
          open_fds (state_of (vm_load_guest_module cfg env vm name base align img s))
          = open_fds s
      | _ => True
      end).
Proof.
  intros Hdef Hsize.
  assert (Hload : forall a e ot hdr s1 ev1,
             get_guest_image_type cfg env name zero_header s = (Ret (e, ot, hdr), s1, ev1) ->
             e = 0 -> open_fds s1 = open_fds s ->
             match result_of (load_image cfg env vm name a s1) with
             | Ret _ => open_fds (state_of (load_image cfg env vm name a s1)) = open_fds s
             | _ => True
             end).
  { intros a e ot hdr s1 ev1 Hg -> Htab.
    destruct (get_guest_image_type_success cfg env name s s1 ot hdr ev1 Hg)
      as (content & t & Hfs & Hlen & _).
    pose proof (Hsize content Hfs) as Hfit.
    rewrite <- Htab.
    apply (load_image_table cfg env vm name a s1 content Hfs).
    - rewrite wrap_small by lia. lia.
    - intros Hd. apply (Hdef Hd). }
  split.
  - intros [gki|]; [|reflexivity].
    destruct (vm_load_guest_kernel_run cfg env vm name base align gki s)
      as (e & ot & hdr & s1 & ev1 & Hg & Htab & [[_ ->] | (He & _ & Hrun)]);
      [exact Htab|].
    destruct (sniffed hdr); try (rewrite Hrun; exact Htab).
    + rewrite Hrun. apply entry_result_table. exact (Hload _ _ _ _ _ _ Hg He Htab).
    + destruct Hrun as (a & _ & ->).
      apply entry_result_table. exact (Hload _ _ _ _ _ _ Hg He Htab).
  - intros [img|]; [|reflexivity].
    destruct (vm_load_guest_module_run cfg env vm name base align img s)
      as (e & ot & hdr & s1 & ev1 & Hg & Htab & [[_ ->] | (He & _ & Hrun)]);
      [exact Htab|].
    destruct (sniffed hdr); try (rewrite Hrun; exact Htab);
      rewrite Hrun; apply entry_result_table; exact (Hload _ _ _ _ _ _ Hg He Htab).
Qed.

Lemma entry_points_keep_descriptor_table_witness :
  open_fds (state_of (vm_load_guest_kernel cfg64
                        (env_short_read (one_file "kernel" raw_100)) (vm_at 0x40000000)
                        "kernel" 0x40000000 0 (Some blank_kernel_image) no_fds))
  = open_fds no_fds.
Proof.
  apply (proj1 (entry_points_keep_descriptor_table cfg64
                  (env_short_read (one_file "kernel" raw_100)) (vm_at 0x40000000)
                  "kernel" 0x40000000 0 no_fds
                  ltac:(discriminate)
                  ltac:(intros content H; injection H as <-; reflexivity))
           (Some blank_kernel_image)).
Defined.

(** X9. An entry point returns 0 only for an artifact of at least 64
    bytes whose header has a format of its role, and then the descriptor
    holds the address resolved for that format, which is not 0, and the
    length of the artifact as a [size_t], and keeps its alignment field:
    for the kernel a raw binary at the entry point of the VM or a zImage at
    the address of the zImage rule, for a module a device tree or a gzip
    ramdisk at the base. *)
Theorem successful_load_descriptor (cfg : config) (env : environment) (vm : vm_t)
  (name : string) (base align : Z) (s : state) :
  (forall gki out,
      result_of (vm_load_guest_kernel cfg env vm name base align (Some gki) s)
      = Ret (0, out) ->
      exists content a,
        fs_lookup env name = Some content
        /\ (64 <= List.length content)%nat
        /\ a <> 0
        /\ out = Some {| kernel_image :=
                           {| load_paddr := a;
                              alignment := alignment (kernel_image gki);
                              size := wrap cfg (Z.of_nat (List.length content)) |} |}
        /\ ((image_get_type (firstn 64 content) = Some IMG_BIN /\ a = entry vm)
            \/ (image_get_type (firstn 64 content) = Some IMG_ZIMAGE
                /\ zImage_get_load_address cfg (firstn 64 content) base = Some a)))
  /\ (forall img out,
      result_of (vm_load_guest_module cfg env vm name base align (Some img) s)
      = Ret (0, out) ->
      exists content,
        fs_lookup env name = Some content
        /\ (64 <= List.length content)%nat
        /\ base <> 0
        /\ out = Some {| load_paddr := base;
                         alignment := alignment img;
                         size := wrap cfg (Z.of_nat (List.length content)) |}
        /\ (image_get_type (firstn 64 content) = Some IMG_DTB
            \/ image_get_type (firstn 64 content) = Some IMG_INITRD_GZ)).
Proof.
  split.
  - intros gki out.
    destruct (vm_load_guest_kernel_run cfg env vm name base align gki s)
      as (e & ot & hdr & s1 & ev1 & Hg & Htab & [[_ ->] | (-> & -> & Hrun)]);
      [intros H; discriminate H|].
    destruct (get_guest_image_type_success cfg env name s s1 _ hdr ev1 Hg)
      as (content & t & Hfs & Hlen & Hhdr & Ht & Himg & _).
    injection Ht as Ht. subst hdr. rewrite Ht in Hrun.
    assert (Hfin : forall a,
               result_of (entry_result gki (kernel_store gki) a
                            (after ev1 (load_image cfg env vm name a s1))) = Ret (0, out) ->
               a <> 0
               /\ out = Some {| kernel_image :=
                                  {| load_paddr := a;
                                     alignment := alignment (kernel_image gki);
                                     size := wrap cfg (Z.of_nat (List.length content)) |} |}).
    { intros a Hr.
      pose proof (entry_result_outcomes cfg env vm name gki (kernel_store gki) a ev1 s1)
        as Ho.
      rewrite Hr in Ho.
      destruct Ho as [[H _] | (_ & Ha & content' & Hfs' & _ & ->)]; [discriminate H|].
      assert (content' = content) by congruence. subst content'.
      split; [exact Ha | reflexivity]. }
    destruct t; try (rewrite Hrun; intros H; discriminate H).
    + rewrite Hrun. intros Hr. destruct (Hfin _ Hr) as [Ha Hout].
      exists content, (entry vm). repeat split; try assumption. left. split; [exact Himg | reflexivity].
    + destruct Hrun as (a & Hz & ->). intros Hr. destruct (Hfin _ Hr) as [Ha Hout].
      exists content, a. repeat split; try assumption. right. split; assumption.
  - intros img out.
    destruct (vm_load_guest_module_run cfg env vm name base align img s)
      as (e & ot & hdr & s1 & ev1 & Hg & Htab & [[_ ->] | (-> & -> & Hrun)]);
      [intros H; discriminate H|].
    destruct (get_guest_image_type_success cfg env name s s1 _ hdr ev1 Hg)
      as (content & t & Hfs & Hlen & Hhdr & Ht & Himg & _).
    injection Ht as Ht. subst hdr. rewrite Ht in Hrun.
    assert (Hfin :
               result_of (entry_result img (module_store img) base
                            (after ev1 (load_image cfg env vm name base s1))) = Ret (0, out) ->
               base <> 0
               /\ out = Some {| load_paddr := base;
                                alignment := alignment img;
                                size := wrap cfg (Z.of_nat (List.length content)) |}).
    { intros Hr.
      pose proof (entry_result_outcomes cfg env vm name img (module_store img) base ev1 s1)
        as Ho.
      rewrite Hr in Ho.
      destruct Ho as [[H _] | (_ & Ha & content' & Hfs' & _ & ->)]; [discriminate H|].
      assert (content' = content) by congruence. subst content'.
      split; [exact Ha | reflexivity]. }
    destruct t; try (rewrite Hrun; intros H; discriminate H);
      rewrite Hrun; intros Hr; destruct (Hfin Hr) as [Ha Hout];
      exists content; repeat split; try assumption; auto.
Qed.

Lemma successful_load_descriptor_witness :
  exists content a,
    fs_lookup (quiet_env (one_file "kernel" zimage_100)) "kernel" = Some content
    /\ (64 <= List.length content)%nat
    /\ a <> 0
    /\ Some {| kernel_image :=
                 {| load_paddr := 0x80008000; alignment := 0; size := 100 |} |}
       = Some {| kernel_image :=
                   {| load_paddr := a;
                      alignment := alignment (kernel_image blank_kernel_image);
                      size := wrap cfg64 (Z.of_nat (List.length content)) |} |}
    /\ ((image_get_type (firstn 64 content) = Some IMG_BIN /\ a = entry (vm_at 0x40000000))
        \/ (image_get_type (firstn 64 content) = Some IMG_ZIMAGE
            /\ zImage_get_load_address cfg64 (firstn 64 content) 0x80000000 = Some a)).
Proof.
  apply (proj1 (successful_load_descriptor cfg64 (quiet_env (one_file "kernel" zimage_100))
                  (vm_at 0x40000000) "kernel" 0x80000000 0 no_fds)
           blank_kernel_image
           (Some {| kernel_image :=
                      {| load_paddr := 0x80008000; alignment := 0; size := 100 |} |})).
  vm_compute. reflexivity.
Defined.

(** X10. No artifact is both a kernel and a module: from one state, if
    the kernel entry point returns 0 for an artifact, the module entry
    point returns -1 for it whatever its base and descriptor, and the other
    way round. *)
Theorem kernel_and_module_exclude (cfg : config) (env : environment) (vm : vm_t)
  (name : string) (s : state) :
  (forall base align gki out base' align' img,
      result_of (vm_load_guest_kernel cfg env vm name base align (Some gki) s)
      = Ret (0, out) ->
      result_of (vm_load_guest_module cfg env vm name base' align' (Some img) s)
      = Ret (-1, Some img))
  /\ (forall base align img out base' align' gki,
      result_of (vm_load_guest_module cfg env vm name base align (Some img) s)
      = Ret (0, out) ->
      result_of (vm_load_guest_kernel cfg env vm name base' align' (Some gki) s)
      = Ret (-1, Some gki)).
Proof.
  split.
  - intros base align gki out base' align' img.
    destruct (vm_load_guest_kernel_run cfg env vm name base align gki s)
      as (e & ot & hdr & s1 & ev1 & Hg & _ & [[_ ->] | (-> & -> & Hrun)]);
      [intros H; discriminate H|].
    destruct (vm_load_guest_module_run cfg env vm name base' align' img s)
      as (e' & ot' & hdr' & s1' & ev1' & Hg' & _ & [[_ ->] | (_ & _ & Hrun')]);
      [reflexivity|].
    assert (hdr' = hdr) by congruence. subst hdr'.
    destruct (sniffed hdr);
      try (rewrite Hrun; intros H; discriminate H);
      rewrite Hrun'; reflexivity.
  - intros base align img out base' align' gki.
    destruct (vm_load_guest_module_run cfg env vm name base align img s)
      as (e & ot & hdr & s1 & ev1 & Hg & _ & [[_ ->] | (-> & -> & Hrun)]);
      [intros H; discriminate H|].
    destruct (vm_load_guest_kernel_run cfg env vm name base' align' gki s)
      as (e' & ot' & hdr' & s1' & ev1' & Hg' & _ & [[_ ->] | (_ & _ & Hrun')]);
      [reflexivity|].
    assert (hdr' = hdr) by congruence. subst hdr'.
    destruct (sniffed hdr);
      try (rewrite Hrun; intros H; discriminate H);
      rewrite Hrun'; reflexivity.
Qed.

Lemma kernel_and_module_exclude_witness :
  result_of (vm_load_guest_module cfg64 (quiet_env (one_file "kernel" zimage_100))
               (vm_at 0x40000000) "kernel" 0x48000000 0 (Some blank_image) no_fds)
  = Ret (-1, Some blank_image).
Proof.
  apply (proj1 (kernel_and_module_exclude cfg64 (quiet_env (one_file "kernel" zimage_100))
                  (vm_at 0x40000000) "kernel" no_fds)
           0x80000000 0 blank_kernel_image
           (Some {| kernel_image :=
                      {| load_paddr := 0x80008000; alignment := 0; size := 100 |} |})
           0x48000000 0 blank_image).
  vm_compute. reflexivity.
Defined.

(** ** Cache maintenance *)

Section CacheRuns.
Variable cfg : config.
Variable env : environment.
Variable vm : vm_t.

(** The events of a chunk that succeeds. *)
Lemma guest_write_address_ok (paddr vaddr sz offset fd : Z) (s : state) :
  0 <= sz ->
  result_of (guest_write_address cfg env vm paddr vaddr sz offset fd s) = Ret 0 ->
  exists n data,
    events_of (guest_write_address cfg env vm paddr vaddr sz offset fd s)
    = EvRead fd sz n :: EvGuestWrite paddr data
      :: (if clean_cache vm then [EvCleanInvalidate (vspace_cap env vaddr) 0] else [])
    /\ (clean_cache vm = true -> vspace_cap env vaddr <> seL4_CapNull).
Proof.
  intros Hsz.
  destruct (sys_read_run env fd sz s Hsz) as (n & data & s' & Hrd & _).
  unfold guest_write_address, bind. rewrite Hrd.
  unfold emit at 1. cbn beta iota.
  destruct (negb (wrap cfg n =? sz)); [cbn; intros H; discriminate H|].
  destruct (clean_cache vm).
  - destruct (Z.eqb_spec (vspace_cap env vaddr) seL4_CapNull) as [|Hcap];
      [cbn; intros H; discriminate H|].
    unfold emit, fatal, ret.
    destruct (Z.eqb_spec (clean_invalidate_err env (vspace_cap env vaddr)) 0) as [Herr|];
      cbn [negb]; [|cbn; intros H; discriminate H].
    intros _. exists n, data. rewrite Herr. split; [reflexivity|]. intros _. exact Hcap.
  - intros _. exists n, data. split; [reflexivity|]. intros H. discriminate H.
Qed.

Lemma touch_from_cleaned (fd addr end_addr : Z) (fuel : nat) :
  forall (current_addr : Z) (s : state),
    result_of (touch_from env fuel vm (guest_write_address cfg env) fd addr
                 current_addr end_addr s) = Ret 0 ->
    (clean_cache vm = true ->
     forall tl,
       cleaned_after_write (fun p => vspace_cap env (vmm_vaddr env p))
         (events_of (touch_from env fuel vm (guest_write_address cfg env) fd addr
                       current_addr end_addr s) ++ tl)
       = cleaned_after_write (fun p => vspace_cap env (vmm_vaddr env p)) tl)
    /\ (clean_cache vm = false ->
        filter is_clean_invalidate
          (events_of (touch_from env fuel vm (guest_write_address cfg env) fd addr
                        current_addr end_addr s)) = []).
Proof.
  induction fuel as [|fuel IH]; intros cur s; cbn [touch_from];
    destruct (Z.ltb_spec cur end_addr) as [Hlt | Hge];
    try (intros _; split; intros _; reflexivity);
    try (cbn; intros H; discriminate H).
  unfold PAGE_SIZE_4K.
  set (next := Z.min end_addr (cur - cur mod 4096 + 4096)).
  pose proof (Z.mod_pos_bound cur 4096 ltac:(lia)) as Hmod.
  assert (Hsz : 0 <= next - cur) by (subst next; lia).
  pose proof (guest_write_address_ok cur (vmm_vaddr env cur) (next - cur) (cur - addr)
                fd s Hsz) as Hok.
  unfold bind.
  destruct (guest_write_address cfg env vm cur (vmm_vaddr env cur) (next - cur)
              (cur - addr) fd s) as [[[r| |] s1] ev];
    cbn [result_of state_of events_of fst snd] in *;
    try (intros H; discriminate H).
  destruct (Z.eqb_spec r 0) as [-> | Hr]; cbn [negb];
    [|cbn; intros H; injection H as H; contradiction].
  destruct (Hok eq_refl) as (n & data & -> & Hcap).
  specialize (IH next s1).
  destruct (touch_from env fuel vm (guest_write_address cfg env) fd addr next end_addr s1)
    as [[r2 s2] ev2]; cbn [result_of state_of events_of fst snd] in *.
  intros Hr2. destruct (IH Hr2) as [IHc IHn].
  split.
  - intros Hcc tl. rewrite Hcc in *. cbn [app cleaned_after_write].
    rewrite Z.eqb_refl.
    destruct (Z.eqb_spec (vspace_cap env (vmm_vaddr env cur)) seL4_CapNull) as [E|_];
      [destruct (Hcap eq_refl E)|].
    cbn [negb andb Z.eqb]. apply IHc. reflexivity.
  - intros Hcc. rewrite Hcc in *. cbn [app filter is_clean_invalidate]. apply IHn. reflexivity.
Qed.
End CacheRuns.

(** X11. In a load that succeeds for a VM that asks for its cache to be
    cleaned, every write to guest memory is followed at once, before the
    next chunk is read, by a clean and invalidate of the page written that
    did not fail, on the cap, not null, of the VMM mapping of that page;
    for a VM that does not ask for it no cache maintenance is done. *)
Theorem load_image_cache_maintenance (cfg : config) (env : environment) (vm : vm_t)
  (name : string) (addr : Z) (s : state) (out : option Z) :
  result_of (load_image cfg env vm name addr s) = Ret (0, out) ->
  (clean_cache vm = true ->
   cleaned_after_write (fun p => vspace_cap env (vmm_vaddr env p))
     (events_of (load_image cfg env vm name addr s)) = true)
  /\ (clean_cache vm = false ->
      filter is_clean_invalidate (events_of (load_image cfg env vm name addr s)) = []).
Proof.
  destruct (fs_lookup env name) as [content|] eqn:Hfs.
  2:{ rewrite load_image_missing by exact Hfs. intros H. discriminate H. }
  rewrite (load_image_run cfg env vm name addr s content Hfs).
  set (L := wrap cfg (Z.of_nat (List.length content))).
  set (fd := fresh_fd (open_fds s)).
  set (s1 := {| open_fds := (fd, (name, 0)) :: open_fds s; nreads := nreads s |}).
  destruct (0 =? L); [intros H; discriminate H|].
  destruct (cfg_defer_memory_map cfg && negb (map_deferred_err env addr L =? 0));
    [intros H; discriminate H|].
  pose proof (touch_from_cleaned cfg env vm fd addr (addr + L)
                (Z.to_nat (L / PAGE_SIZE_4K) + 2) addr s1) as Hcl.
  fold (vm_ram_touch env vm addr L (guest_write_address cfg env) fd s1) in Hcl.
  destruct (vm_ram_touch env vm addr L (guest_write_address cfg env) fd s1)
    as [[[e| |] st] ev]; cbn [result_of state_of events_of fst snd] in *;
    try (intros H; discriminate H).
  destruct (Z.eqb_spec e 0) as [-> | He]; cbn [negb]; [|intros H; discriminate H].
  intros _. destruct (Hcl eq_refl) as [Hc Hn]. cbn [events_of snd].
  split.
  - intros Hcc. cbn [app cleaned_after_write].
    destruct (cfg_defer_memory_map cfg); cbn [app cleaned_after_write];
      rewrite (Hc Hcc); reflexivity.
  - intros Hcc. rewrite !filter_app, (Hn Hcc).
    destruct (cfg_defer_memory_map cfg); reflexivity.
Qed.

Lemma load_image_cache_maintenance_witness :
  cleaned_after_write (fun p => vspace_cap (quiet_env (one_file "kernel" raw_3_pages))
                                  (vmm_vaddr (quiet_env (one_file "kernel" raw_3_pages)) p))
    (events_of (load_image cfg64 (quiet_env (one_file "kernel" raw_3_pages))
                  (vm_at 0x40000000) "kernel" 0x40000000 after_header)) = true.
Proof.
  apply (proj1 (load_image_cache_maintenance cfg64
                  (quiet_env (one_file "kernel" raw_3_pages)) (vm_at 0x40000000)
                  "kernel" 0x40000000 after_header (Some 12288)
                  ltac:(vm_compute; reflexivity))).
  reflexivity.
Defined.
